(** * Region resolution, object writer and request handlers of the scanner API

    A shallow embedding of [src/scanService.ts], [src/api/scan.ts] and the
    express entry point.  Module-level [let] variables become an explicit
    record of globals; every call that leaves the process (S3, the model
    provider, the clock, the random source) is answered by a host that may
    look at the whole history of earlier calls, and is recorded as an event.
    [console.*] output is not modelled. *)

From Stdlib Require Import String Ascii List Bool Arith ZArith Lia.
Import ListNotations.
Local Open Scope string_scope.

(** ** JavaScript strings *)

Module Js.

(** Truthiness of a string: only the empty string is falsy. *)
Definition truthy (s : string) : bool :=
  match s with
  | EmptyString => false
  | String _ _ => true
  end.

(** [a || b] on strings. *)
Definition or_else (a b : string) : string :=
  if truthy a then a else b.

(** Truthiness of [string | null | undefined]. *)
Definition truthy_opt (v : option string) : bool :=
  match v with
  | Some s => truthy s
  | None => false
  end.

Fixpoint startsWith (p s : string) : bool :=
  match p, s with
  | EmptyString, _ => true
  | String a p', String b s' => Ascii.eqb a b && startsWith p' s'
  | String _ _, EmptyString => false
  end.

(** [hay.includes(needle)] *)
Fixpoint includes (needle hay : string) : bool :=
  startsWith needle hay ||
  match hay with
  | EmptyString => false
  | String _ hay' => includes needle hay'
  end.

(** [s.slice(n)] for [0 <= n]. *)
Fixpoint drop (n : nat) (s : string) : string :=
  match n, s with
  | O, _ => s
  | S _, EmptyString => EmptyString
  | S n', String _ s' => drop n' s'
  end.

Fixpoint map_chars (f : ascii -> ascii) (s : string) : string :=
  match s with
  | EmptyString => EmptyString
  | String c s' => String (f c) (map_chars f s')
  end.

(** The class [\w] of the regular expressions: [A-Za-z0-9_]. *)
Definition is_word_char (c : ascii) : bool :=
  let n := nat_of_ascii c in
  (((65 <=? n) && (n <=? 90)) || ((97 <=? n) && (n <=? 122)) ||
   ((48 <=? n) && (n <=? 57)) || (n =? 95))%nat.

(** [s.replace(/[:.]/g, '-')] *)
Definition dash_colons_and_dots (s : string) : string :=
  map_chars (fun c => if Ascii.eqb c ":" || Ascii.eqb c "." then "-"%char else c) s.

Definition newline : ascii := "010"%char.

(** [s.replace(re, '')] for a global regular expression [re] that never
    matches the empty string: [match_at s] is the length of the match of
    [re] at the head of [s], if there is one.  [skip] counts the
    characters of the current match that are still to be removed. *)
Fixpoint remove_matches (match_at : string -> option nat)
         (skip : nat) (s : string) : string :=
  match s with
  | EmptyString => EmptyString
  | String c s' =>
      match skip with
      | S k => remove_matches match_at k s'
      | O =>
          match match_at s with
          | Some (S k) => remove_matches match_at k s'
          | _ => String c (remove_matches match_at 0 s')
          end
      end
  end.

Fixpoint skip_word_chars (s : string) : string :=
  match s with
  | String c s' => if is_word_char c then skip_word_chars s' else s
  | EmptyString => EmptyString
  end.

End Js.

(** ** Region normalisation *)

(** [normalizeRegion(value?: string | null)]; [None] stands for both
    [null] and [undefined]. *)
Definition normalizeRegion (value : option string) : string :=
  match value with
  | None => "us-east-1"
  | Some v =>
      if negb (Js.truthy v) || (v =? "us-east-1") then "us-east-1"
      else if v =? "EU" then "eu-west-1"
      else v
  end.


(** ** Values that cross the process boundary *)

(** A JSON-like JavaScript value: request bodies and the parsed answer of
    the model.  Numbers are kept integral: the code only ever tests the
    type and the truthiness of such a value. *)
#[local] Unset Elimination Schemes.
Inductive JsValue : Type :=
| JsUndefined
| JsNull
| JsBoolean (b : bool)
| JsNumber (n : Z)
| JsString (s : string)
| JsArray (items : list JsValue)
| JsObject (fields : list (string * JsValue)).
#[local] Set Elimination Schemes.

(** A thrown value.  An instance of [Error] (every SDK exception is one)
    always has a name and a message; [$metadata.httpStatusCode] is present
    on service exceptions only.  Anything else that is thrown may lack each
    of the three. *)
Inductive Thrown : Type :=
| ErrorObject (name message : string) (httpStatusCode : option Z)
| OtherThrown (name message : option string) (httpStatusCode : option Z).

Definition err_name (e : Thrown) : option string :=
  match e with
  | ErrorObject n _ _ => Some n
  | OtherThrown n _ _ => n
  end.

Definition err_message (e : Thrown) : option string :=
  match e with
  | ErrorObject _ m _ => Some m
  | OtherThrown _ m _ => m
  end.

Definition err_httpStatusCode (e : Thrown) : option Z :=
  match e with
  | ErrorObject _ _ c => c
  | OtherThrown _ _ c => c
  end.

Definition instanceof_Error (e : Thrown) : bool :=
  match e with
  | ErrorObject _ _ _ => true
  | OtherThrown _ _ _ => false
  end.

(** How an awaited call ends. *)
Inductive Outcome (A : Type) : Type :=
| Returned (a : A)
| Threw (e : Thrown).
Arguments Returned {A} a.
Arguments Threw {A} e.

Record Credentials : Type := {
  accessKeyId : string;
  secretAccessKey : string
}.

(** [new S3Client({ region, credentials, forcePathStyle? })] *)
Record S3Client : Type := {
  client_region : string;
  client_credentials : Credentials;
  forcePathStyle : option bool
}.

Record PutObjectCommand : Type := {
  Bucket : string;
  Key : string;
  Body : list Byte.byte;
  ContentType : string
}.

(** Everything the process asks of the outside, with the answer it got. *)
Inductive Event : Type :=
| EvGetBucketLocation (client : S3Client) (bucket : string)
                      (answer : Outcome (option string))
| EvPutObject (client : S3Client) (cmd : PutObjectCommand)
              (answer : Outcome unit)
| EvRandomId (id : string)
| EvNow (iso : string)
| EvGenerateContent (data : string) (answer : Outcome (option string)).

(** The host: the SDKs, the clock, the random source and the runtime
    library.  Answers of effectful calls may depend on all earlier events. *)
Record Host : Type := {
  s3_GetBucketLocation :
    list Event -> S3Client -> string -> Outcome (option string);
  s3_PutObject :
    list Event -> S3Client -> PutObjectCommand -> Outcome unit;
  (* [crypto.randomUUID()], or [Math.random().toString(36).slice(2)] *)
  random_id : list Event -> string;
  (* [new Date().toISOString()] *)
  now_toISOString : list Event -> string;
  (* [ai.models.generateContent(...)], reduced to [response.text] *)
  ai_generateContent : list Event -> string -> Outcome (option string);
  Buffer_from_base64 : string -> list Byte.byte;
  JSON_parse : string -> Outcome JsValue
}.

(** The module-level constants read from the environment at start-up. *)
Record Config : Type := {
  bucket : string;
  folder : string;
  preferredRegion : string;
  credentials : Credentials
}.

(** The two module-level [let] variables. *)
Record Globals : Type := {
  resolvedRegion : option string;
  s3Client : option S3Client
}.

Definition initial_globals : Globals :=
  {| resolvedRegion := None; s3Client := None |}.

(** ** Asynchronous computations

    A computation reads the history of events so far, may change the
    globals, and yields its outcome with the events it added. *)
Definition Async (A : Type) : Type :=
  Globals -> list Event -> Outcome A * Globals * list Event.

Definition ret {A : Type} (a : A) : Async A :=
  fun g _ => (Returned a, g, []).

Definition throw {A : Type} (e : Thrown) : Async A :=
  fun g _ => (Threw e, g, []).

Definition bind {A B : Type} (m : Async A) (k : A -> Async B) : Async B :=
  fun g h =>
    match m g h with
    | (Returned a, g1, ev1) =>
        match k a g1 (h ++ ev1)%list with
        | (r, g2, ev2) => (r, g2, (ev1 ++ ev2)%list)
        end
    | (Threw e, g1, ev1) => (Threw e, g1, ev1)
    end.

(** [try { m } catch (e) { handler e }]: what [m] did to the globals
    before it threw stays done. *)
Definition try_catch {A : Type} (m : Async A) (handler : Thrown -> Async A)
  : Async A :=
  fun g h =>
    match m g h with
    | (Returned a, g1, ev1) => (Returned a, g1, ev1)
    | (Threw e, g1, ev1) =>
        match handler e g1 (h ++ ev1)%list with
        | (r, g2, ev2) => (r, g2, (ev1 ++ ev2)%list)
        end
    end.

Declare Scope async_scope.
Delimit Scope async_scope with async.
Notation "x <- m ;; k" := (bind m (fun x => k))
  (at level 61, m at next level, right associativity) : async_scope.
Notation "m ;;; k" := (bind m (fun _ => k))
  (at level 61, right associativity) : async_scope.
Local Open Scope async_scope.

Definition get_resolvedRegion : Async (option string) :=
  fun g _ => (Returned (resolvedRegion g), g, []).

Definition set_resolvedRegion (v : option string) : Async unit :=
  fun g _ => (Returned tt, {| resolvedRegion := v; s3Client := s3Client g |}, []).

Definition get_s3Client : Async (option S3Client) :=
  fun g _ => (Returned (s3Client g), g, []).

Definition set_s3Client (v : option S3Client) : Async unit :=
  fun g _ =>
    (Returned tt, {| resolvedRegion := resolvedRegion g; s3Client := v |}, []).

Definition outcome_of {A : Type} (x : Outcome A * Globals * list Event)
  : Outcome A := fst (fst x).
Definition globals_of {A : Type} (x : Outcome A * Globals * list Event)
  : Globals := snd (fst x).
Definition events_of {A : Type} (x : Outcome A * Globals * list Event)
  : list Event := snd x.

(** ** scanService.ts *)

Section ScanService.

Variable host : Host.
Variable cfg : Config.

Definition send_GetBucketLocation (client : S3Client) (b : string)
  : Async (option string) :=
  fun g h =>
    let answer := s3_GetBucketLocation host h client b in
    (answer, g, [EvGetBucketLocation client b answer]).

Definition send_PutObject (client : S3Client) (cmd : PutObjectCommand)
  : Async unit :=
  fun g h =>
    let answer := s3_PutObject host h client cmd in
    (answer, g, [EvPutObject client cmd answer]).

Definition fresh_random_id : Async string :=
  fun g h => let id := random_id host h in (Returned id, g, [EvRandomId id]).

Definition Date_now_toISOString : Async string :=
  fun g h =>
    let iso := now_toISOString host h in (Returned iso, g, [EvNow iso]).

Definition generateContent (data : string) : Async (option string) :=
  fun g h =>
    let answer := ai_generateContent host h data in
    (answer, g, [EvGenerateContent data answer]).

(** The client built for the two lookups: [{ region: 'us-east-1', credentials }]. *)
Definition discoveryClient : S3Client :=
  {| client_region := "us-east-1";
     client_credentials := credentials cfg;
     forcePathStyle := None |}.

(** [new S3Client({ region, credentials, forcePathStyle: false })] *)
Definition uploadClient (region : string) : S3Client :=
  {| client_region := region;
     client_credentials := credentials cfg;
     forcePathStyle := Some false |}.

Definition ensureRegion : Async string :=
  let resolve : Async string :=
    if Js.truthy (preferredRegion cfg) then
      let r :=
        Js.or_else (normalizeRegion (Some (preferredRegion cfg))) "us-east-1" in
      set_resolvedRegion (Some r) ;;; ret r
    else
      try_catch
        (result <- send_GetBucketLocation discoveryClient (bucket cfg) ;;
         (* LocationConstraint is null for us-east-1 buckets *)
         let r := Js.or_else (normalizeRegion result) "us-east-1" in
         set_resolvedRegion (Some r) ;;; ret r)
        (fun _ => set_resolvedRegion (Some "us-east-1") ;;; ret "us-east-1")
  in
  cached <- get_resolvedRegion ;;
  match cached with
  | Some r => if Js.truthy r then ret r else resolve
  | None => resolve
  end.

Definition getS3Client : Async S3Client :=
  existing <- get_s3Client ;;
  match existing with
  | Some c => ret c
  | None =>
      region <- ensureRegion ;;
      let c := uploadClient region in
      set_s3Client (Some c) ;;; ret c
  end.

(** [input.replace(/^\/+/, '').replace(/\/+$/, '')] *)
Fixpoint strip_leading_slashes (s : string) : string :=
  match s with
  | String c s' => if Ascii.eqb c "/" then strip_leading_slashes s' else s
  | EmptyString => EmptyString
  end.

Fixpoint strip_trailing_slashes (s : string) : string :=
  match s with
  | EmptyString => EmptyString
  | String c s' =>
      let rest := strip_trailing_slashes s' in
      if Ascii.eqb c "/" && negb (Js.truthy rest) then EmptyString
      else String c rest
  end.

Definition sanitizeFolder (input : string) : string :=
  strip_trailing_slashes (strip_leading_slashes input).

Definition generateObjectKey : Async string :=
  let safeFolder := sanitizeFolder (folder cfg) in
  id <- fresh_random_id ;;
  iso <- Date_now_toISOString ;;
  let timestamp := Js.dash_colons_and_dots iso in
  let prefix := if Js.truthy safeFolder then safeFolder ++ "/" else "" in
  ret (prefix ++ timestamp ++ "-" ++ id ++ ".jpg").

(** [s.replace(/^data:image\/\w+;base64,/, '')] *)
Definition strip_data_url (s : string) : string :=
  if Js.startsWith "data:image/" s then
    let rest := Js.drop 11 s in
    let after := Js.skip_word_chars rest in
    let some_word_char :=
      match rest with
      | String c _ => Js.is_word_char c
      | EmptyString => false
      end in
    if some_word_char && Js.startsWith ";base64," after
    then Js.drop 8 after else s
  else s.

Definition base64ToBuffer (base64Image : string) : list Byte.byte :=
  Buffer_from_base64 host (strip_data_url base64Image).

(** The test of the outer [catch]:
    [error?.message?.includes('endpoint') || error?.name === 'PermanentRedirect'
     || error?.$metadata?.httpStatusCode === 301]. *)
Definition is_region_mismatch (error : Thrown) : bool :=
  match err_message error with
  | Some m => Js.includes "endpoint" m
  | None => false
  end
  || match err_name error with
     | Some n => n =? "PermanentRedirect"
     | None => false
     end
  || match err_httpStatusCode error with
     | Some c => (c =? 301)%Z
     | None => false
     end.

Record UploadOutcome : Type := {
  objectKey : string;
  region : string
}.

(** The [try] statement of [persistScanResult] (lines 106-164), as a
    function of the locals it reads; its value is the local [region] once
    the statement is over. *)
Definition put_with_region_retry (client : S3Client) (put : PutObjectCommand)
           (region : string) : Async string :=
  try_catch
    (send_PutObject client put ;;; ret region)
    (fun error =>
       (* If we get an endpoint error, try to extract the correct region *)
       if is_region_mismatch error then
         (* Reset client and region to force rediscovery *)
         set_s3Client None ;;;
         set_resolvedRegion None ;;;
         (* Try to get bucket location again *)
         try_catch
           (result <- send_GetBucketLocation discoveryClient (bucket cfg) ;;
            let region := Js.or_else (normalizeRegion result) "us-east-1" in
            (* Create new client with correct region *)
            let client := uploadClient region in
            set_s3Client (Some client) ;;;
            (* Retry the upload *)
            send_PutObject client put ;;;
            ret region)
           (fun retryError => throw retryError)
       else throw error).

Definition persistScanResult (base64Image : string) : Async UploadOutcome :=
  objectKey <- generateObjectKey ;;
  let body := base64ToBuffer base64Image in
  region <- ensureRegion ;;
  client <- getS3Client ;;
  let put :=
    {| Bucket := bucket cfg; Key := objectKey; Body := body;
       ContentType := "image/jpeg" |} in
  region <- put_with_region_retry client put region ;;
  ret {| objectKey := objectKey; region := region |}.

(** [s.replace(/^data:image\/(png|jpeg|webp);base64,/, '')] *)
Definition strip_known_data_url (s : string) : string :=
  let png := "data:image/png;base64," in
  let jpeg := "data:image/jpeg;base64," in
  let webp := "data:image/webp;base64," in
  if Js.startsWith png s then Js.drop (String.length png) s
  else if Js.startsWith jpeg s then Js.drop (String.length jpeg) s
  else if Js.startsWith webp s then Js.drop (String.length webp) s
  else s.

Definition fence : string := "```".
Definition nl : string := String Js.newline EmptyString.

(** Length of the match of [/```json\n?|\n?```/] at the head of [s]. *)
Definition match_json_fence (s : string) : option nat :=
  if Js.startsWith (fence ++ "json") s then
    Some (if Js.startsWith nl (Js.drop 7 s) then 8 else 7)
  else if Js.startsWith (nl ++ fence) s then Some 4
  else if Js.startsWith fence s then Some 3
  else None.

(** Length of the match of [/```\n?|\n?```/] at the head of [s]. *)
Definition match_plain_fence (s : string) : option nat :=
  if Js.startsWith fence s then
    Some (if Js.startsWith nl (Js.drop 3 s) then 4 else 3)
  else if Js.startsWith (nl ++ fence) s then Some 4
  else None.

Definition strip_code_fences (text : string) : string :=
  if Js.includes (fence ++ "json") text then
    Js.remove_matches match_json_fence 0 text
  else if Js.includes fence text then
    Js.remove_matches match_plain_fence 0 text
  else text.

Definition empty_scan_error : Thrown :=
  ErrorObject "Error" "Không nhận được dữ liệu từ máy quét." None.

Definition analyzeImage (base64Image : string) : Async JsValue :=
  let cleanBase64 := strip_known_data_url base64Image in
  response_text <- generateContent cleanBase64 ;;
  let text :=
    match response_text with
    | Some t => Js.or_else t ""
    | None => ""
    end in
  let text := strip_code_fences text in
  if negb (Js.truthy text) then throw empty_scan_error
  else fun g _ => (JSON_parse host text, g, []).

Record ScanResult : Type := {
  analysis : JsValue;
  recordId : string;
  s3Url : string
}.

Definition handleScan (image : string) : Async ScanResult :=
  analysis <- analyzeImage image ;;
  out <- persistScanResult image ;;
  let imageKey := objectKey out in
  let region := region out in
  let domain :=
    if region =? "us-east-1" then "s3.amazonaws.com"
    else "s3." ++ region ++ ".amazonaws.com" in
  let s3Url := "https://" ++ bucket cfg ++ "." ++ domain ++ "/" ++ imageKey in
  ret {| analysis := analysis; recordId := imageKey; s3Url := s3Url |}.

(** ** The two transports: api/scan.ts and the express route *)

Record Request : Type := {
  method : string;
  body : JsValue
}.

Inductive ResponseBody : Type :=
| DetailBody (detail : string)
| ResultBody (result : ScanResult).

Record Response : Type := {
  status : nat;
  headers : list (string * string);
  payload : ResponseBody
}.

(** Property lookup in a parsed object, whose keys are distinct. *)
Fixpoint lookup_field (key : string) (fields : list (string * JsValue))
  : JsValue :=
  match fields with
  | [] => JsUndefined
  | (k, v) :: rest => if k =? key then v else lookup_field key rest
  end.

(** [const { image } = body ?? {}]: only an object can carry the field. *)
Definition image_of (body : JsValue) : JsValue :=
  match body with
  | JsObject fields => lookup_field "image" fields
  | _ => JsUndefined
  end.

(** [!image || typeof image !== 'string'] is false exactly on a
    non-empty string, which is then the image. *)
Definition valid_image (image : JsValue) : option string :=
  match image with
  | JsString s => if Js.truthy s then Some s else None
  | _ => None
  end.

Definition methodNotAllowed : Response :=
  {| status := 405;
     headers := [("Allow", "POST")];
     payload := DetailBody "Method Not Allowed" |}.

Definition missing_image : Response :=
  {| status := 400; headers := [];
     payload := DetailBody "Thiếu dữ liệu ảnh base64." |}.

Definition failure_detail (error : Thrown) : string :=
  match error with
  | ErrorObject _ message _ => message
  | OtherThrown _ _ _ => "Không thể xử lý yêu cầu."
  end.

Definition scan_and_respond (image : string) : Async Response :=
  try_catch
    (result <- handleScan image ;;
     ret {| status := 200; headers := []; payload := ResultBody result |})
    (fun error =>
       ret {| status := 500; headers := [];
              payload := DetailBody (failure_detail error) |}).

(** [export default async function handler(req, res)] of api/scan.ts *)
Definition handler (req : Request) : Async Response :=
  if negb (method req =? "POST") then ret methodNotAllowed
  else
    match valid_image (image_of (body req)) with
    | None => ret missing_image
    | Some image => scan_and_respond image
    end.

(** [app.post('/api/scan', ...)]: express calls it on POST requests only,
    with the body that [express.json] parsed. *)
Definition api_scan_route (req_body : JsValue) : Async Response :=
  match valid_image (image_of req_body) with
  | None => ret missing_image
  | Some image => scan_and_respond image
  end.

(** ** Operations of the process *)

Inductive Operation : Type :=
| OpEnsureRegion
| OpGetS3Client
| OpPersistScanResult (image : string)
| OpHandleScan (image : string)
| OpHandler (req : Request)
| OpApiScanRoute (req_body : JsValue).

Definition after {A : Type} (m : Async A) (g : Globals) (h : list Event)
  : Globals * list Event :=
  (globals_of (m g h), (h ++ events_of (m g h))%list).

Definition run_op (op : Operation) (g : Globals) (h : list Event)
  : Globals * list Event :=
  match op with
  | OpEnsureRegion => after ensureRegion g h
  | OpGetS3Client => after getS3Client g h
  | OpPersistScanResult image => after (persistScanResult image) g h
  | OpHandleScan image => after (handleScan image) g h
  | OpHandler req => after (handler req) g h
  | OpApiScanRoute req_body => after (api_scan_route req_body) g h
  end.

(** The operations run one after the other, from a given state. *)
Fixpoint run_ops (ops : list Operation) (g : Globals) (h : list Event)
  : Globals * list Event :=
  match ops with
  | [] => (g, h)
  | op :: rest =>
      let '(g', h') := run_op op g h in run_ops rest g' h'
  end.

(** The state of a process that started fresh and ran [ops]. *)
Definition state_after (ops : list Operation) : Globals * list Event :=
  run_ops ops initial_globals [].

(** With a fixed region configured, the cache is either empty or holds
    the normalised configured region. *)
Definition cache_is_configured (g : Globals) : Prop :=
  resolvedRegion g = None \/
  resolvedRegion g = Some (normalizeRegion (Some (preferredRegion cfg))).

(** ** The ways a call can unfold

    Each relation lists the paths through one function: the value it
    yields and the events it adds.  The lemmas of the second part show that
    the functions above follow one of these paths on every input. *)

Inductive EnsureRun (g : Globals) : string -> list Event -> Prop :=
| ensure_cached (r : string) :
    resolvedRegion g = Some r -> Js.truthy r = true ->
    EnsureRun g r []
| ensure_configured :
    Js.truthy_opt (resolvedRegion g) = false ->
    Js.truthy (preferredRegion cfg) = true ->
    EnsureRun g (normalizeRegion (Some (preferredRegion cfg))) []
| ensure_discovered (loc : option string) :
    Js.truthy_opt (resolvedRegion g) = false ->
    Js.truthy (preferredRegion cfg) = false ->
    EnsureRun g (normalizeRegion loc)
      [EvGetBucketLocation discoveryClient (bucket cfg) (Returned loc)]
| ensure_fallback (e : Thrown) :
    Js.truthy_opt (resolvedRegion g) = false ->
    Js.truthy (preferredRegion cfg) = false ->
    EnsureRun g "us-east-1"
      [EvGetBucketLocation discoveryClient (bucket cfg) (Threw e)].

Inductive PutRun (client : S3Client) (put : PutObjectCommand)
          (region : string) (g : Globals)
  : Outcome string -> Globals -> list Event -> Prop :=
| put_first_ok :
    PutRun client put region g (Returned region) g
      [EvPutObject client put (Returned tt)]
| put_other_error (e : Thrown) :
    is_region_mismatch e = false ->
    PutRun client put region g (Threw e) g
      [EvPutObject client put (Threw e)]
| put_lookup_failed (e ed : Thrown) :
    is_region_mismatch e = true ->
    PutRun client put region g (Threw ed)
      {| resolvedRegion := None; s3Client := None |}
      [EvPutObject client put (Threw e);
       EvGetBucketLocation discoveryClient (bucket cfg) (Threw ed)]
| put_retry_ok (e : Thrown) (loc : option string) :
    is_region_mismatch e = true ->
    PutRun client put region g (Returned (normalizeRegion loc))
      {| resolvedRegion := None;
         s3Client := Some (uploadClient (normalizeRegion loc)) |}
      [EvPutObject client put (Threw e);
       EvGetBucketLocation discoveryClient (bucket cfg) (Returned loc);
       EvPutObject (uploadClient (normalizeRegion loc)) put (Returned tt)]
| put_retry_failed (e : Thrown) (loc : option string) (e2 : Thrown) :
    is_region_mismatch e = true ->
    PutRun client put region g (Threw e2)
      {| resolvedRegion := None;
         s3Client := Some (uploadClient (normalizeRegion loc)) |}
      [EvPutObject client put (Threw e);
       EvGetBucketLocation discoveryClient (bucket cfg) (Returned loc);
       EvPutObject (uploadClient (normalizeRegion loc)) put (Threw e2)].

(** The key built from what the random source and the clock answered. *)
Definition key_of (id iso : string) : string :=
  let safeFolder := sanitizeFolder (folder cfg) in
  (if Js.truthy safeFolder then safeFolder ++ "/" else "")
    ++ Js.dash_colons_and_dots iso ++ "-" ++ id ++ ".jpg".

Definition put_of (key image : string) : PutObjectCommand :=
  {| Bucket := bucket cfg; Key := key; Body := base64ToBuffer image;
     ContentType := "image/jpeg" |}.

Definition map_outcome {A B : Type} (f : A -> B) (o : Outcome A) : Outcome B :=
  match o with
  | Returned a => Returned (f a)
  | Threw e => Threw e
  end.

End ScanService.

(** ** Reading a trace *)

Fixpoint put_attempts (evs : list Event)
  : list (S3Client * PutObjectCommand * Outcome unit) :=
  match evs with
  | [] => []
  | EvPutObject c cmd a :: rest => (c, cmd, a) :: put_attempts rest
  | _ :: rest => put_attempts rest
  end.

Fixpoint discoveries (evs : list Event) : list (Outcome (option string)) :=
  match evs with
  | [] => []
  | EvGetBucketLocation _ _ a :: rest => a :: discoveries rest
  | _ :: rest => discoveries rest
  end.

Fixpoint key_generations (evs : list Event) : list string :=
  match evs with
  | [] => []
  | EvRandomId id :: rest => id :: key_generations rest
  | _ :: rest => key_generations rest
  end.

Fixpoint analysis_calls (evs : list Event) : list (Outcome (option string)) :=
  match evs with
  | [] => []
  | EvGenerateContent _ a :: rest => a :: analysis_calls rest
  | _ :: rest => analysis_calls rest
  end.

(** The events that follow the first put attempt. *)
Fixpoint after_first_put (evs : list Event) : list Event :=
  match evs with
  | [] => []
  | EvPutObject _ _ _ :: rest => rest
  | _ :: rest => after_first_put rest
  end.

(** The client is bound to the region the cache holds. *)
Definition client_matches_cache (g : Globals) : bool :=
  match s3Client g with
  | None => true
  | Some c =>
      match resolvedRegion g with
      | Some r => client_region c =? r
      | None => false
      end
  end.

(** The pairing the data model asks for: a live client comes with a
    non-empty cached region, the one it is bound to. *)
Definition client_paired (g : Globals) : Prop :=
  match s3Client g with
  | None => True
  | Some c =>
      exists r, resolvedRegion g = Some r /\ client_region c = r /\
                Js.truthy r = true
  end.

(** ** Scripted hosts, for concrete runs

    The n-th lookup, put and model call get the n-th entry of a script;
    past the end of a script a call succeeds with an empty answer. *)
Definition scripted_host
           (lookups : list (Outcome (option string)))
           (puts : list (Outcome unit))
           (generations : list (Outcome (option string))) : Host :=
  {| s3_GetBucketLocation := fun h _ _ =>
       nth (length (discoveries h)) lookups (Returned None);
     s3_PutObject := fun h _ _ =>
       nth (length (put_attempts h)) puts (Returned tt);
     random_id := fun h =>
       match length (key_generations h) with
       | O => "3f2c"
       | S _ => "9a7e"
       end;
     now_toISOString := fun _ => "2024-05-01T10:20:30.456Z";
     ai_generateContent := fun h _ =>
       nth (length (analysis_calls h)) generations (Returned None);
     Buffer_from_base64 := list_byte_of_string;
     JSON_parse := fun text => Returned (JsString text) |}.

Definition test_credentials : Credentials :=
  {| accessKeyId := "AKIA"; secretAccessKey := "secret" |}.

(** No region configured: the bucket region has to be looked up. *)
Definition discovering_cfg : Config :=
  {| bucket := "faces"; folder := "person_image"; preferredRegion := "";
     credentials := test_credentials |}.

(** A fixed region is configured. *)
Definition fixed_cfg : Config :=
  {| bucket := "faces"; folder := "/person_image/";
     preferredRegion := "eu-west-1"; credentials := test_credentials |}.

Definition permanent_redirect : Thrown :=
  ErrorObject "PermanentRedirect"
    "The bucket you are attempting to access must be addressed using the specified endpoint."
    (Some 301%Z).

Definition access_denied : Thrown :=
  ErrorObject "AccessDenied" "Access Denied" (Some 403%Z).

Definition network_down : Thrown :=
  ErrorObject "TimeoutError" "socket hang up" None.

Definition slow_down : Thrown :=
  ErrorObject "SlowDown" "Please reduce your request rate." (Some 503%Z).

(** The first put is redirected; the second lookup finds the bucket in
    ap-southeast-1 and the retry succeeds; a third lookup would time out. *)
Definition redirected_host : Host :=
  scripted_host
    [Returned None; Returned (Some "ap-southeast-1"); Threw network_down]
    [Threw permanent_redirect; Returned tt]
    [Returned (Some "{}"); Returned (Some "{}")].

(** The first put is redirected and the second lookup is refused. *)
Definition lookup_denied_host : Host :=
  scripted_host [Returned None; Threw access_denied]
                [Threw permanent_redirect] [].

(** The first lookup times out, the put succeeds. *)
Definition lookup_timeout_host : Host :=
  scripted_host [Threw network_down] [Returned tt] [].

(** The put is refused for a reason that has nothing to do with regions. *)
Definition put_denied_host : Host :=
  scripted_host [Returned (Some "eu-west-1")] [Threw access_denied] [].

(** The first put is redirected and the retry is throttled. *)
Definition retry_fails_host : Host :=
  scripted_host [Returned None; Returned (Some "ap-southeast-1")]
                [Threw permanent_redirect; Threw slow_down] [].

(** The bucket is not where the configuration says. *)
Definition misconfigured_host : Host :=
  scripted_host [Returned (Some "eu-central-1")]
                [Threw permanent_redirect; Returned tt] [].

(** Every call succeeds. *)
Definition quiet_host : Host :=
  scripted_host [] [] [Returned (Some "{}"); Returned (Some "{}")].

(** The model cannot be reached. *)
Definition model_down_host : Host :=
  scripted_host [] [] [Threw network_down].

Definition sample_image : string := "data:image/png;base64,QUJD".

Definition post_with_number : Request :=
  {| method := "POST"; body := JsObject [("image", JsNumber 123)] |}.

Definition post_with_image : Request :=
  {| method := "POST"; body := JsObject [("image", JsString sample_image)] |}.

Definition get_without_image : Request :=
  {| method := "GET"; body := JsObject [] |}.

(** ** Start-up: reading the environment

    [process.env] maps a name to a string or to [undefined].  Values are
    byte strings here; the two Unicode line terminators are recognised by
    their UTF-8 encodings. *)

Definition Env : Type := string -> option string.

Definition double_quote : ascii := "034"%char.

(** [s] starts with a line terminator: LF, CR, U+2028 or U+2029.  These are
    the characters [.] does not match. *)
Definition line_terminator_at (s : string) : bool :=
  Js.startsWith (String "010" EmptyString) s ||
  Js.startsWith (String "013" EmptyString) s ||
  Js.startsWith (String "226" (String "128" (String "168" EmptyString))) s ||
  Js.startsWith (String "226" (String "128" (String "169" EmptyString))) s.

Fixpoint has_line_terminator (s : string) : bool :=
  line_terminator_at s ||
  match s with
  | EmptyString => false
  | String _ s' => has_line_terminator s'
  end.

(** The string without its last character, and that character. *)
Fixpoint unsnoc (s : string) : option (string * ascii) :=
  match s with
  | EmptyString => None
  | String c s' =>
      match unsnoc s' with
      | None => Some (EmptyString, c)
      | Some (init, last) => Some (String c init, last)
      end
  end.

(** [s.replace(re, '$1')] where [re] is: start of input, a double quote, a
    group of any characters but line terminators, a double quote, end of
    input.  The pattern matches the whole string or nothing. *)
Definition strip_quote_pair (s : string) : string :=
  match s with
  | String c rest =>
      if Ascii.eqb c double_quote then
        match unsnoc rest with
        | Some (inner, last) =>
            if Ascii.eqb last double_quote && negb (has_line_terminator inner)
            then inner else s
        | None => s
        end
      else s
  | EmptyString => s
  end.

(** [(value?: string) => value?.replace(...) ?? ''] *)
Definition stripQuotes (value : option string) : string :=
  match value with
  | Some s => strip_quote_pair s
  | None => ""
  end.

Definition missing_variable (key : string) : Thrown :=
  ErrorObject "Error" ("Thiếu biến môi trường " ++ key) None.

Definition requireEnv (env : Env) (key : string) : Outcome string :=
  let value := stripQuotes (env key) in
  if negb (Js.truthy value) then Threw (missing_variable key)
  else Returned value.

(** [optionalEnv(key, fallback = '')] *)
Definition optionalEnv (env : Env) (key fallback : string) : string :=
  Js.or_else (stripQuotes (env key)) fallback.

Definition and_then {A B : Type} (o : Outcome A) (k : A -> Outcome B)
  : Outcome B :=
  match o with
  | Returned a => k a
  | Threw e => Threw e
  end.

(** What loading scanService.ts computes, in the order of the module body:
    the constants of [Config], then the key handed to [GoogleGenAI]. *)
Definition load_scanService (env : Env) : Outcome (Config * string) :=
  and_then (requireEnv env "S3_BUCKET") (fun bucket =>
  let folder := optionalEnv env "S3_FOLDER" "person_image" in
  let preferredRegion :=
    Js.or_else (optionalEnv env "S3_REGION" "")
      (Js.or_else (optionalEnv env "AWS_REGION" "")
         (Js.or_else (optionalEnv env "AWS_DEFAULT_REGION" "") "")) in
  and_then (requireEnv env "AWS_ACCESS_KEY_ID") (fun accessKeyId =>
  and_then (requireEnv env "AWS_SECRET_ACCESS_KEY") (fun secretAccessKey =>
  and_then (requireEnv env "GEMINI_API_KEY") (fun apiKey =>
  Returned
    ({| bucket := bucket; folder := folder;
        preferredRegion := preferredRegion;
        credentials := {| accessKeyId := accessKeyId;
                          secretAccessKey := secretAccessKey |} |},
     apiKey))))).

(** ** More ways to read a run *)

(** The URL [handleScan] builds for a region and a key. *)
Definition public_url (bucket region key : string) : string :=
  "https://" ++ bucket ++ "." ++
  (if region =? "us-east-1" then "s3.amazonaws.com"
   else "s3." ++ region ++ ".amazonaws.com") ++ "/" ++ key.

(** No put of the trace failed with the region-mismatch signature. *)
Fixpoint never_redirected (is_mismatch : Thrown -> bool) (evs : list Event)
  : bool :=
  match evs with
  | [] => true
  | EvPutObject _ _ (Threw e) :: rest =>
      negb (is_mismatch e) && never_redirected is_mismatch rest
  | _ :: rest => never_redirected is_mismatch rest
  end.

Fixpoint all_chars (p : ascii -> bool) (s : string) : bool :=
  match s with
  | EmptyString => true
  | String c s' => p c && all_chars p s'
  end.

Definition backtick : ascii := "096"%char.

Definition no_backtick_char (c : ascii) : bool := negb (Ascii.eqb c backtick).

(** An environment given by a list of bindings, for concrete runs. *)
Fixpoint env_of (bindings : list (string * string)) : Env :=
  fun key =>
    match bindings with
    | [] => None
    | (k, v) :: rest => if k =? key then Some v else env_of rest key
    end.

Definition quoted (s : string) : string :=
  String double_quote (s ++ String double_quote EmptyString).

Definition sample_env : Env :=
  env_of [("S3_BUCKET", quoted "faces");
          ("AWS_REGION", "EU");
          ("AWS_DEFAULT_REGION", "us-west-2");
          ("AWS_ACCESS_KEY_ID", "AKIA");
          ("AWS_SECRET_ACCESS_KEY", quoted "secret");
          ("GEMINI_API_KEY", "g-key")].

(** * Properties *)

Local Open Scope list_scope.

(** ** Strings and region normalisation *)

Lemma truthy_true_iff (s : string) : Js.truthy s = true <-> s <> "".
Proof. destruct s; simpl; split; congruence. Qed.

Lemma truthy_false_iff (s : string) : Js.truthy s = false <-> s = "".
Proof. destruct s; simpl; split; congruence. Qed.

Lemma or_else_truthy (a b : string) :
  Js.truthy a = true -> Js.or_else a b = a.
Proof. unfold Js.or_else; now intros ->. Qed.

Lemma normalizeRegion_truthy (value : option string) :
  Js.truthy (normalizeRegion value) = true.
Proof.
  destruct value as [v|]; [|reflexivity]. unfold normalizeRegion.
  destruct v as [|c v]; [reflexivity|]. cbn [Js.truthy negb orb].
  destruct (String c v =? "us-east-1"); [reflexivity|].
  destruct (String c v =? "EU"); reflexivity.
Qed.

Lemma normalizeRegion_or_else (value : option string) :
  Js.or_else (normalizeRegion value) "us-east-1" = normalizeRegion value.
Proof. apply or_else_truthy, normalizeRegion_truthy. Qed.

(** C8. [normalizeRegion] sends [null]/[undefined] and the empty string to
    the baseline region [us-east-1], the legacy alias [EU] to [eu-west-1],
    and returns every other non-empty string unchanged. *)
Theorem normalizeRegion_spec :
  normalizeRegion None = "us-east-1" /\
  normalizeRegion (Some "") = "us-east-1" /\
  normalizeRegion (Some "EU") = "eu-west-1" /\
  (forall v : string, v <> "" -> v <> "EU" -> normalizeRegion (Some v) = v).
Proof.
  repeat split; try reflexivity.
  intros v Hne Heu. unfold normalizeRegion.
  apply truthy_true_iff in Hne. rewrite Hne. cbn [negb orb].
  destruct (String.eqb_spec v "us-east-1") as [->|_]; [reflexivity|].
  destruct (String.eqb_spec v "EU") as [->|_]; [contradiction|reflexivity].
Qed.

Lemma normalizeRegion_spec_witness :
  "ap-southeast-1" <> "" /\ "ap-southeast-1" <> "EU" /\
  normalizeRegion (Some "ap-southeast-1") = "ap-southeast-1".
Proof.
  split; [discriminate|]. split; [discriminate|].
  apply (proj2 (proj2 (proj2 normalizeRegion_spec))); discriminate.
Defined.

(** ** Every call follows one of its paths *)

Section Runs.

Variable host : Host.
Variable cfg : Config.

Lemma EnsureRun_truthy g r evs : EnsureRun cfg g r evs -> Js.truthy r = true.
Proof. destruct 1; auto using normalizeRegion_truthy. Qed.

Lemma ensureRegion_run g h :
  exists r evs,
    EnsureRun cfg g r evs /\
    ensureRegion host cfg g h =
      (Returned r, {| resolvedRegion := Some r; s3Client := s3Client g |}, evs).
Proof.
  unfold ensureRegion, bind, get_resolvedRegion, try_catch, set_resolvedRegion, ret,
    send_GetBucketLocation.
  rewrite !normalizeRegion_or_else.
  destruct g as [cached cl]; cbn [resolvedRegion s3Client].
  assert (Hc : cached = None \/ cached = Some "" \/
               exists r, cached = Some r /\ Js.truthy r = true).
  { destruct cached as [[|c r]|]; eauto 6. }
  destruct Hc as [-> | [-> | (r & -> & Hr)]].
  3: { rewrite Hr. exists r, []. split; [now apply ensure_cached|reflexivity]. }
  all: cbn [Js.truthy].
  all: destruct (Js.truthy (preferredRegion cfg)) eqn:Hp.
  all: try (eexists _, _; split; [apply ensure_configured; [reflexivity|exact Hp]|reflexivity]).
  all: match goal with
       | |- context [s3_GetBucketLocation ?a ?b ?c ?d] =>
           destruct (s3_GetBucketLocation a b c d) as [loc|e] eqn:Hd
       end.
  all: rewrite ?normalizeRegion_or_else.
  all: first
    [ solve [eexists _, _; split;
             [apply ensure_discovered; [reflexivity|exact Hp] | reflexivity]]
    | solve [eexists _, _; split;
             [apply ensure_fallback; [reflexivity|exact Hp] | reflexivity]] ].
Qed.

Lemma getS3Client_after_ensure g r h :
  Js.truthy r = true ->
  getS3Client host cfg {| resolvedRegion := Some r; s3Client := s3Client g |} h =
    (Returned (match s3Client g with Some c => c | None => uploadClient cfg r end),
     {| resolvedRegion := Some r;
        s3Client := Some (match s3Client g with Some c => c | None => uploadClient cfg r end) |},
     []).
Proof.
  intros Hr. unfold getS3Client, ensureRegion.
  unfold bind, get_s3Client, get_resolvedRegion, set_s3Client, ret.
  cbn [resolvedRegion s3Client]. destruct (s3Client g) as [c|]; [reflexivity|].
  cbv beta iota zeta. cbn [resolvedRegion s3Client]. rewrite Hr. reflexivity.
Qed.

Lemma put_with_region_retry_run client put region g h :
  exists o g' evs,
    PutRun cfg client put region g o g' evs /\
    put_with_region_retry host cfg client put region g h = (o, g', evs).
Proof.
  unfold put_with_region_retry, try_catch, bind, send_PutObject, send_GetBucketLocation,
    set_s3Client, set_resolvedRegion, ret, throw.
  destruct (s3_PutObject host h client put) as [[]|e] eqn:H1.
  { eexists _, _, _; split; [apply put_first_ok|reflexivity]. }
  destruct (is_region_mismatch e) eqn:Hm.
  2: { eexists _, _, _; split; [apply put_other_error; exact Hm|reflexivity]. }
  cbn [resolvedRegion s3Client app].
  match goal with
  | |- context [s3_GetBucketLocation ?a ?b ?c ?d] =>
      destruct (s3_GetBucketLocation a b c d) as [loc|ed] eqn:Hd
  end.
  2: { eexists _, _, _; split; [apply put_lookup_failed; exact Hm|reflexivity]. }
  rewrite !normalizeRegion_or_else. cbn [resolvedRegion s3Client app].
  match goal with
  | |- context [s3_PutObject ?a ?b ?c ?d] =>
      destruct (s3_PutObject a b c d) as [[]|e2] eqn:H2
  end.
  - eexists _, _, _; split; [apply put_retry_ok; exact Hm|reflexivity].
  - eexists _, _, _; split; [apply put_retry_failed; exact Hm|reflexivity].
Qed.

Lemma persistScanResult_run image g h :
  exists id iso r evR o g' evP,
    EnsureRun cfg g r evR /\
    PutRun cfg (match s3Client g with Some c => c | None => uploadClient cfg r end)
      (put_of host cfg (key_of cfg id iso) image) r
      {| resolvedRegion := Some r;
         s3Client := Some (match s3Client g with Some c => c | None => uploadClient cfg r end) |}
      o g' evP /\
    persistScanResult host cfg image g h =
      (map_outcome (fun region => {| objectKey := key_of cfg id iso; region := region |}) o,
       g', EvRandomId id :: EvNow iso :: evR ++ evP)%list.
Proof.
  unfold persistScanResult.
  unfold bind at 1. unfold generateObjectKey, bind, fresh_random_id, Date_now_toISOString, ret.
  cbn [app].
  match goal with
  | |- context [ensureRegion host cfg g ?h1] =>
      destruct (ensureRegion_run g h1) as (r & evR & HR & ->)
  end.
  rewrite (getS3Client_after_ensure g r _ (EnsureRun_truthy _ _ _ HR)).
  match goal with
  | |- context [put_with_region_retry host cfg ?c ?p ?rg ?g1 ?h1] =>
      destruct (put_with_region_retry_run c p rg g1 h1) as (o & g' & evP & HP & ->)
  end.
  exists (random_id host h), (now_toISOString host (h ++ [EvRandomId (random_id host h)])), r, evR, o, g', evP.
  split; [exact HR|]. split; [exact HP|].
  destruct o; cbn; rewrite ?app_nil_r; reflexivity.
Qed.


Ltac persist_paths image g h :=
  let id := fresh "id" in let iso := fresh "iso" in let r := fresh "r" in
  let evR := fresh "evR" in let o := fresh "o" in let g' := fresh "g'" in
  let evP := fresh "evP" in let HR := fresh "HR" in let HP := fresh "HP" in
  let Hrun := fresh "Hrun" in
  destruct (persistScanResult_run image g h)
    as (id & iso & r & evR & o & g' & evP & HR & HP & Hrun);
  rewrite Hrun in *; clear Hrun;
  unfold outcome_of, globals_of, events_of in *; cbn [fst snd] in *;
  destruct HR; destruct HP;
  cbn [put_attempts discoveries key_generations after_first_put app nth_error
       length map_outcome resolvedRegion s3Client] in *.


Lemma analyzeImage_run image g h :
  exists o a,
    analyzeImage host image g h =
      (o, g, [EvGenerateContent (strip_known_data_url image) a]) /\
    (forall e, a = Threw e -> o = Threw e).
Proof.
  unfold analyzeImage, bind, generateContent, throw.
  destruct (ai_generateContent host h (strip_known_data_url image))
    as [text|e] eqn:Hgen.
  - match goal with
    | |- context [if ?b then _ else _] => destruct b
    end; eexists _, _; (split; [reflexivity|discriminate]).
  - eexists _, _; split; [reflexivity|]. now intros e' [= ->].
Qed.

Lemma handleScan_run image g h :
  exists oa a build,
    analyzeImage host image g h =
      (oa, g, [EvGenerateContent (strip_known_data_url image) a]) /\
    match oa with
    | Threw e =>
        handleScan host cfg image g h =
          (Threw e, g, [EvGenerateContent (strip_known_data_url image) a])
    | Returned _ =>
        let w :=
          persistScanResult host cfg image g
            (h ++ [EvGenerateContent (strip_known_data_url image) a]) in
        handleScan host cfg image g h =
          (map_outcome build (outcome_of w), globals_of w,
           EvGenerateContent (strip_known_data_url image) a :: events_of w)
    end.
Proof.
  destruct (analyzeImage_run image g h) as (oa & a & Ha & _).
  destruct oa as [an|e].
  - eexists (Returned an), a, _. split; [exact Ha|].
    unfold handleScan. unfold bind at 1. rewrite Ha.
    cbv zeta. unfold bind, ret, outcome_of, globals_of, events_of.
    destruct (persistScanResult host cfg image g _) as [[[out|e] g1] ev1];
      cbn [fst snd map_outcome app]; rewrite ?app_nil_r; reflexivity.
  - exists (Threw e), a, (fun out => {| analysis := JsNull; recordId := objectKey out;
                                        s3Url := "" |}).
    split; [exact Ha|].
    unfold handleScan. unfold bind at 1. rewrite Ha. reflexivity.
Qed.

Lemma scan_and_respond_run image g h :
  scan_and_respond host cfg image g h =
    (Returned
       match outcome_of (handleScan host cfg image g h) with
       | Returned result =>
           {| status := 200; headers := []; payload := ResultBody result |}
       | Threw error =>
           {| status := 500; headers := [];
              payload := DetailBody (failure_detail error) |}
       end,
     globals_of (handleScan host cfg image g h),
     events_of (handleScan host cfg image g h)).
Proof.
  unfold scan_and_respond, try_catch, bind, ret, outcome_of, globals_of, events_of.
  destruct (handleScan host cfg image g h) as [[[result|error] g1] ev1];
    cbn [fst snd]; rewrite ?app_nil_r; reflexivity.
Qed.

Lemma getS3Client_run g h :
  exists c g' evs,
    getS3Client host cfg g h = (Returned c, g', evs) /\
    ((s3Client g = Some c /\ g' = g /\ evs = []) \/
     (s3Client g = None /\
      exists r, EnsureRun cfg g r evs /\ c = uploadClient cfg r /\
                g' = {| resolvedRegion := Some r; s3Client := Some c |})).
Proof.
  unfold getS3Client. unfold bind at 1. unfold get_s3Client.
  destruct (s3Client g) as [c|] eqn:Hc.
  - exists c, g, []. split; [reflexivity|]. left; auto.
  - unfold bind, set_s3Client, ret.
    destruct (ensureRegion_run g (h ++ [])) as (r & evs & HR & ->).
    eexists (uploadClient cfg r), _, evs. cbn [resolvedRegion app].
    rewrite !app_nil_r. split; [reflexivity|]. right. split; [reflexivity|].
    exists r. auto.
Qed.

(** ** The object writer *)

(** C5. When the first put of a write fails with an error that does not
    carry the region-mismatch signature, [persistScanResult] throws that
    very error, the trace holds exactly one put attempt, and nothing at all
    (no retry, no lookup) follows that put. *)
Theorem persistScanResult_other_error_no_retry image g h client cmd error :
  nth_error (put_attempts (events_of (persistScanResult host cfg image g h))) 0
    = Some (client, cmd, Threw error) ->
  is_region_mismatch error = false ->
  outcome_of (persistScanResult host cfg image g h) = Threw error /\
  length (put_attempts (events_of (persistScanResult host cfg image g h))) = 1 /\
  after_first_put (events_of (persistScanResult host cfg image g h)) = [].
Proof.
  intros H1 H2. persist_paths image g h.
  all: inversion H1; subst; try congruence; auto.
Qed.

(** C6. When the first put fails with the region-mismatch signature and
    the retried put fails too, [persistScanResult] throws the error of the
    retry, and the trace holds exactly two put attempts: there is no third. *)
Theorem persistScanResult_retry_failure_is_final
        image g h c1 cmd1 e1 c2 cmd2 e2 :
  nth_error (put_attempts (events_of (persistScanResult host cfg image g h))) 0
    = Some (c1, cmd1, Threw e1) ->
  is_region_mismatch e1 = true ->
  nth_error (put_attempts (events_of (persistScanResult host cfg image g h))) 1
    = Some (c2, cmd2, Threw e2) ->
  outcome_of (persistScanResult host cfg image g h) = Threw e2 /\
  length (put_attempts (events_of (persistScanResult host cfg image g h))) = 2.
Proof.
  intros H1 Hm H2. persist_paths image g h.
  all: inversion H1; subst; try congruence; inversion H2; subst; auto.
Qed.

(** No write makes more than two put attempts. *)
Lemma persistScanResult_at_most_two_puts image g h :
  length (put_attempts (events_of (persistScanResult host cfg image g h))) <= 2.
Proof. persist_paths image g h; auto. Qed.

(** C7. When a write makes a second put attempt, that attempt sends the
    same command as the first: same bucket, key, body and content type.
    The body is the decoded image, the key is built from the one identifier
    drawn in the call. *)
Theorem persistScanResult_retry_same_key_and_body
        image g h c1 cmd1 a1 c2 cmd2 a2 :
  nth_error (put_attempts (events_of (persistScanResult host cfg image g h))) 0
    = Some (c1, cmd1, a1) ->
  nth_error (put_attempts (events_of (persistScanResult host cfg image g h))) 1
    = Some (c2, cmd2, a2) ->
  cmd2 = cmd1 /\
  Body cmd1 = base64ToBuffer host image /\
  exists id iso,
    Key cmd1 = key_of cfg id iso /\
    key_generations (events_of (persistScanResult host cfg image g h)) = [id].
Proof.
  intros H1 H2. persist_paths image g h.
  all: inversion H1; subst; try congruence; inversion H2; subst.
  all: split; [reflexivity|]; split; [reflexivity|].
  all: eexists _, _; split; reflexivity.
Qed.

(** X23. What the retry path leaves behind: whenever a second put was
    attempted and succeeded, the write returns the looked-up region, the
    client is bound to it, and the cached region is empty. *)
Lemma persistScanResult_retry_success_state image g h c1 cmd1 e1 c2 cmd2 u :
  put_attempts (events_of (persistScanResult host cfg image g h))
    = [(c1, cmd1, Threw e1); (c2, cmd2, Returned u)] ->
  (exists key,
     outcome_of (persistScanResult host cfg image g h)
       = Returned {| objectKey := key; region := client_region c2 |} /\
     Key cmd2 = key) /\
  s3Client (globals_of (persistScanResult host cfg image g h)) = Some c2 /\
  resolvedRegion (globals_of (persistScanResult host cfg image g h)) = None.
Proof.
  intros H1. persist_paths image g h.
  all: inversion H1; subst.
  all: split; [eexists; split; reflexivity|]; split; reflexivity.
Qed.

(** ** Client and cache as a pair *)

Lemma client_paired_matches g :
  client_paired g -> client_matches_cache g = true.
Proof.
  unfold client_paired, client_matches_cache.
  destruct (s3Client g) as [c|]; [|reflexivity].
  intros (r & -> & <- & _). apply String.eqb_refl.
Qed.

Lemma EnsureRun_paired g r evs :
  client_paired g -> EnsureRun cfg g r evs ->
  match s3Client g with
  | Some c => client_region c = r
  | None => True
  end.
Proof.
  unfold client_paired. intros Hg HR.
  destruct (s3Client g) as [c|]; [|exact I].
  destruct Hg as (r0 & Hr0 & Hc & Ht).
  destruct HR as [r Hr _ | Hr _ | loc Hr _ | e Hr _];
    rewrite Hr0 in Hr; cbn [Js.truthy_opt] in Hr; congruence.
Qed.

Lemma ensureRegion_keeps_paired g h :
  client_paired g -> client_paired (globals_of (ensureRegion host cfg g h)).
Proof.
  intros Hg. destruct (ensureRegion_run g h) as (r & evs & HR & ->).
  pose proof (EnsureRun_paired g r evs Hg HR) as Hc.
  pose proof (EnsureRun_truthy g r evs HR) as Ht.
  unfold client_paired, globals_of; cbn [fst snd s3Client resolvedRegion].
  destruct (s3Client g) as [c|]; [|exact I]. exists r. auto.
Qed.

Lemma getS3Client_keeps_paired g h :
  client_paired g -> client_paired (globals_of (getS3Client host cfg g h)).
Proof.
  intros Hg. destruct (getS3Client_run g h) as (c & g' & evs & -> & Hcases).
  unfold globals_of; cbn [fst snd].
  destruct Hcases as [(_ & -> & _) | (_ & r & HR & -> & ->)]; [exact Hg|].
  exists r. split; [reflexivity|]. split; [reflexivity|].
  exact (EnsureRun_truthy g r evs HR).
Qed.

(** A write that makes at most one put attempt keeps client and cache
    paired; only the retry path can part them. *)
Lemma persistScanResult_keeps_paired_without_retry image g h :
  client_paired g ->
  length (put_attempts (events_of (persistScanResult host cfg image g h))) <= 1 ->
  client_paired (globals_of (persistScanResult host cfg image g h)).
Proof.
  intros Hg Hlen.
  destruct (persistScanResult_run image g h)
    as (id & iso & r & evR & o & g' & evP & HR & HP & Hrun).
  rewrite Hrun in *. unfold globals_of, events_of in *; cbn [fst snd] in *.
  pose proof (EnsureRun_paired g r evR Hg HR) as Hc.
  pose proof (EnsureRun_truthy g r evR HR) as Ht.
  assert (Hpaired :
    client_paired
      {| resolvedRegion := Some r;
         s3Client := Some match s3Client g with
                          | Some c => c
                          | None => uploadClient cfg r
                          end |}).
  { exists r. split; [reflexivity|]. split; [|exact Ht].
    cbn [s3Client]. destruct (s3Client g); [exact Hc|reflexivity]. }
  destruct HR; destruct HP;
    cbn [put_attempts app length] in Hlen;
    solve [exact Hpaired | exact I | lia].
Qed.

(** ** Region lookups *)

(** C3, as the code has it.  [ensureRegion] never throws: the region it
    yields is the one it leaves in the cache, and when its lookup failed
    that region is [us-east-1].  A write whose first put succeeds returns
    normally whatever that lookup answered.  The second lookup, made after
    a region-mismatch failure of the first put, is not recovered: when it
    fails its error is what the write throws, with cache and client both
    empty. *)
Theorem lookup_failure_recovered_in_ensureRegion_only image g h :
  (exists r,
     outcome_of (ensureRegion host cfg g h) = Returned r /\
     resolvedRegion (globals_of (ensureRegion host cfg g h)) = Some r /\
     (forall e, In (Threw e) (discoveries (events_of (ensureRegion host cfg g h)))
                -> r = "us-east-1")) /\
  (forall c cmd u,
     nth_error (put_attempts (events_of (persistScanResult host cfg image g h))) 0
       = Some (c, cmd, Returned u) ->
     exists out,
       outcome_of (persistScanResult host cfg image g h) = Returned out) /\
  (forall c cmd e ed,
     nth_error (put_attempts (events_of (persistScanResult host cfg image g h))) 0
       = Some (c, cmd, Threw e) ->
     is_region_mismatch e = true ->
     nth_error
       (discoveries (after_first_put (events_of (persistScanResult host cfg image g h))))
       0 = Some (Threw ed) ->
     outcome_of (persistScanResult host cfg image g h) = Threw ed /\
     globals_of (persistScanResult host cfg image g h)
       = {| resolvedRegion := None; s3Client := None |}).
Proof.
  split; [|split].
  - destruct (ensureRegion_run g h) as (r & evs & HR & ->).
    exists r. unfold outcome_of, globals_of, events_of; cbn [fst snd resolvedRegion].
    split; [reflexivity|]. split; [reflexivity|].
    intros e He. destruct HR; cbn [discoveries In] in He;
      solve [contradiction | destruct He as [He|[]]; congruence].
  - intros c cmd u H1. persist_paths image g h.
    all: inversion H1; subst; eauto.
  - intros c cmd e ed H1 Hm H2. persist_paths image g h.
    all: inversion H1; subst; try congruence.
    all: inversion H2; subst; auto.
Qed.

(** ** A configured region *)

Lemma EnsureRun_configured g r evs :
  Js.truthy (preferredRegion cfg) = true ->
  cache_is_configured cfg g ->
  EnsureRun cfg g r evs ->
  r = normalizeRegion (Some (preferredRegion cfg)) /\ evs = [].
Proof.
  intros Hp [Hg|Hg] HR; destruct HR; split; congruence.
Qed.

Lemma ensureRegion_keeps_configured g h :
  Js.truthy (preferredRegion cfg) = true ->
  cache_is_configured cfg g ->
  cache_is_configured cfg (globals_of (ensureRegion host cfg g h)).
Proof.
  intros Hp Hg. destruct (ensureRegion_run g h) as (r & evs & HR & ->).
  destruct (EnsureRun_configured g r evs Hp Hg HR) as [-> _].
  right. reflexivity.
Qed.

Lemma getS3Client_keeps_configured g h :
  Js.truthy (preferredRegion cfg) = true ->
  cache_is_configured cfg g ->
  cache_is_configured cfg (globals_of (getS3Client host cfg g h)).
Proof.
  intros Hp Hg.
  destruct (getS3Client_run g h) as (c & g' & evs & -> & Hcases).
  unfold globals_of; cbn [fst snd].
  destruct Hcases as [(_ & -> & _) | (_ & r & HR & _ & ->)]; [exact Hg|].
  destruct (EnsureRun_configured g r evs Hp Hg HR) as [-> _].
  right. reflexivity.
Qed.

Lemma persistScanResult_keeps_configured image g h :
  Js.truthy (preferredRegion cfg) = true ->
  cache_is_configured cfg g ->
  cache_is_configured cfg (globals_of (persistScanResult host cfg image g h)).
Proof.
  intros Hp Hg.
  destruct (persistScanResult_run image g h)
    as (id & iso & r & evR & o & g' & evP & HR & HP & ->).
  destruct (EnsureRun_configured g r evR Hp Hg HR) as [-> _].
  unfold globals_of; cbn [fst snd].
  destruct HP; solve [left; reflexivity | right; reflexivity].
Qed.

Lemma handleScan_keeps_configured image g h :
  Js.truthy (preferredRegion cfg) = true ->
  cache_is_configured cfg g ->
  cache_is_configured cfg (globals_of (handleScan host cfg image g h)).
Proof.
  intros Hp Hg.
  destruct (handleScan_run image g h) as (oa & a & build & _ & Hrun).
  destruct oa as [an|e]; [cbv zeta in Hrun|]; rewrite Hrun.
  - unfold globals_of at 1; cbn [fst snd].
    now apply persistScanResult_keeps_configured.
  - exact Hg.
Qed.

Lemma run_op_keeps_configured op g h :
  Js.truthy (preferredRegion cfg) = true ->
  cache_is_configured cfg g ->
  cache_is_configured cfg (fst (run_op host cfg op g h)).
Proof.
  intros Hp Hg. destruct op as [| |image|image|req|req_body];
    unfold run_op, after; cbn [fst].
  - now apply ensureRegion_keeps_configured.
  - now apply getS3Client_keeps_configured.
  - now apply persistScanResult_keeps_configured.
  - now apply handleScan_keeps_configured.
  - unfold handler.
    destruct (negb (method req =? "POST")%string); [exact Hg|].
    destruct (valid_image (image_of (body req))) as [image|]; [|exact Hg].
    rewrite scan_and_respond_run. unfold globals_of at 1; cbn [fst snd].
    now apply handleScan_keeps_configured.
  - unfold api_scan_route.
    destruct (valid_image (image_of req_body)) as [image|]; [|exact Hg].
    rewrite scan_and_respond_run. unfold globals_of at 1; cbn [fst snd].
    now apply handleScan_keeps_configured.
Qed.

Lemma run_ops_keeps_configured ops :
  Js.truthy (preferredRegion cfg) = true ->
  forall g h,
    cache_is_configured cfg g ->
    cache_is_configured cfg (fst (run_ops host cfg ops g h)).
Proof.
  intros Hp. induction ops as [|op rest IH]; intros g h Hg; [exact Hg|].
  cbn [run_ops]. pose proof (run_op_keeps_configured op g h Hp Hg) as Hstep.
  destruct (run_op host cfg op g h) as [g1 h1]. now apply IH.
Qed.

(** C4, as the code has it.  With a region configured, in every state a
    fresh process can reach: [ensureRegion] yields the normalised
    configured region and [getS3Client] obtains a client, both without any
    event; a write issues no lookup unless its first put failed with the
    region-mismatch signature; and when the first put did fail with that
    signature the write issues exactly one lookup, whatever region is
    configured: it is the event right after that put, made through the
    discovery client for the configured bucket. *)
Theorem configured_region_skips_discovery ops g h image :
  preferredRegion cfg <> ""%string ->
  state_after host cfg ops = (g, h) ->
  ensureRegion host cfg g h =
    (Returned (normalizeRegion (Some (preferredRegion cfg))),
     {| resolvedRegion := Some (normalizeRegion (Some (preferredRegion cfg)));
        s3Client := s3Client g |}, []) /\
  events_of (getS3Client host cfg g h) = [] /\
  ((forall c cmd e,
      nth_error (put_attempts (events_of (persistScanResult host cfg image g h))) 0
        = Some (c, cmd, Threw e) -> is_region_mismatch e = false) ->
   discoveries (events_of (persistScanResult host cfg image g h)) = []) /\
  (forall c cmd e,
     nth_error (put_attempts (events_of (persistScanResult host cfg image g h))) 0
       = Some (c, cmd, Threw e) ->
     is_region_mismatch e = true ->
     exists answer rest,
       discoveries (events_of (persistScanResult host cfg image g h))
         = [answer] /\
       after_first_put (events_of (persistScanResult host cfg image g h))
         = EvGetBucketLocation (discoveryClient cfg) (bucket cfg) answer :: rest).
Proof.
  intros Hne Hst. apply truthy_true_iff in Hne.
  assert (Hg : cache_is_configured cfg g).
  { pose proof (run_ops_keeps_configured ops Hne initial_globals []) as Hinv.
    unfold state_after in Hst. rewrite Hst in Hinv. apply Hinv.
    left; reflexivity. }
  split; [|split; [|split]].
  - destruct (ensureRegion_run g h) as (r & evs & HR & ->).
    now destruct (EnsureRun_configured g r evs Hne Hg HR) as [-> ->].
  - destruct (getS3Client_run g h) as (c & g' & evs & -> & Hcases).
    unfold events_of; cbn [snd].
    destruct Hcases as [(_ & _ & ->) | (_ & r & HR & _)]; [reflexivity|].
    now destruct (EnsureRun_configured g r evs Hne Hg HR).
  - intros Hfirst.
    destruct (persistScanResult_run image g h)
      as (id & iso & r & evR & o & g' & evP & HR & HP & Hrun).
    rewrite Hrun in *. unfold events_of in *; cbn [snd] in *.
    destruct (EnsureRun_configured g r evR Hne Hg HR) as [-> ->].
    destruct HP; cbn [put_attempts discoveries app nth_error] in *;
      try reflexivity.
    all: specialize (Hfirst _ _ _ eq_refl); congruence.
  - intros c cmd e Hfirst Hm.
    destruct (persistScanResult_run image g h)
      as (id & iso & r & evR & o & g' & evP & HR & HP & Hrun).
    rewrite Hrun in *. unfold events_of in *; cbn [snd] in *.
    destruct (EnsureRun_configured g r evR Hne Hg HR) as [-> ->].
    destruct HP;
      cbn [put_attempts discoveries after_first_put app nth_error] in *;
      inversion Hfirst; subst; try congruence.
    all: eexists _, _; split; reflexivity.
Qed.

(** ** The orchestrator and the transports *)

(** C10. The model call is the first event of every [handleScan], so it is
    over before any storage call starts.  When [analyzeImage] throws,
    [handleScan] throws the same error having done nothing else: no put
    attempt, no lookup, the globals untouched. *)
Theorem handleScan_analysis_failure_writes_nothing image g h e :
  outcome_of (analyzeImage host image g h) = Threw e ->
  handleScan host cfg image g h =
    (Threw e, g, events_of (analyzeImage host image g h)) /\
  put_attempts (events_of (handleScan host cfg image g h)) = [] /\
  discoveries (events_of (handleScan host cfg image g h)) = [] /\
  exists data answer rest,
    events_of (handleScan host cfg image g h)
      = EvGenerateContent data answer :: rest /\
    analysis_calls rest = [].
Proof.
  intros He.
  destruct (handleScan_run image g h) as (oa & a & build & Ha & Hrun).
  rewrite Ha in *. unfold outcome_of in He; cbn [fst] in He. subst oa.
  rewrite Hrun. unfold events_of; cbn [snd put_attempts discoveries].
  repeat split. exists (strip_known_data_url image), a, []. split; reflexivity.
Qed.

(** X24. In every run of [handleScan], failed or not, the model call
    comes first and is the only one; the storage calls are all after it. *)
Lemma handleScan_analysis_first image g h :
  exists data answer rest,
    events_of (handleScan host cfg image g h)
      = EvGenerateContent data answer :: rest /\
    analysis_calls rest = [] /\
    put_attempts (events_of (handleScan host cfg image g h)) = put_attempts rest.
Proof.
  destruct (handleScan_run image g h) as (oa & a & build & Ha & Hrun).
  destruct oa as [an|e]; [cbv zeta in Hrun|]; rewrite Hrun;
    unfold events_of; cbn [snd put_attempts].
  - eexists _, _, _. split; [reflexivity|]. split; [|reflexivity].
    persist_paths image g (h ++ [EvGenerateContent (strip_known_data_url image) a]);
      reflexivity.
  - eexists _, _, []. repeat split.
Qed.

Lemma valid_image_not_string (v : JsValue) :
  (forall s, v <> JsString s) -> valid_image v = None.
Proof.
  intros Hv. destruct v; try reflexivity. now destruct (Hv s).
Qed.

(** C9.  A POST request whose body carries no [image]
    field, or one that is not a string, is answered 400 by both transports
    with no event at all, so neither the model nor the storage is called.
    The serverless handler answers 405 to every request that is not a POST,
    before it looks at the body.  When the image is accepted and
    [handleScan] throws, both transports answer 500 with a detail string. *)
Theorem transports_status_codes (req : Request) (req_body : JsValue) g h :
  (method req = "POST"%string ->
   (forall s, image_of (body req) <> JsString s) ->
   handler host cfg req g h = (Returned missing_image, g, [])) /\
  ((forall s, image_of req_body <> JsString s) ->
   api_scan_route host cfg req_body g h = (Returned missing_image, g, [])) /\
  (method req <> "POST"%string ->
   handler host cfg req g h = (Returned methodNotAllowed, g, [])) /\
  (forall image e,
     method req = "POST"%string ->
     valid_image (image_of (body req)) = Some image ->
     outcome_of (handleScan host cfg image g h) = Threw e ->
     outcome_of (handler host cfg req g h)
       = Returned {| status := 500; headers := [];
                     payload := DetailBody (failure_detail e) |}) /\
  (forall image e,
     valid_image (image_of req_body) = Some image ->
     outcome_of (handleScan host cfg image g h) = Threw e ->
     outcome_of (api_scan_route host cfg req_body g h)
       = Returned {| status := 500; headers := [];
                     payload := DetailBody (failure_detail e) |}) /\
  status missing_image = 400 /\ status methodNotAllowed = 405.
Proof.
  repeat apply conj; try reflexivity.
  - intros Hm Hv. unfold handler. rewrite Hm, String.eqb_refl. cbn [negb].
    now rewrite (valid_image_not_string _ Hv).
  - intros Hv. unfold api_scan_route. now rewrite (valid_image_not_string _ Hv).
  - intros Hm. unfold handler.
    destruct (String.eqb_spec (method req) "POST") as [Heq|_]; [contradiction|].
    reflexivity.
  - intros image e Hm Hv He. unfold handler. rewrite Hm, String.eqb_refl.
    cbn [negb]. rewrite Hv, scan_and_respond_run.
    unfold outcome_of at 1; cbn [fst]. now rewrite He.
  - intros image e Hv He. unfold api_scan_route.
    rewrite Hv, scan_and_respond_run.
    unfold outcome_of at 1; cbn [fst]. now rewrite He.
Qed.

(** ** Caching *)

Lemma ensureRegion_cached g h r :
  resolvedRegion g = Some r -> Js.truthy r = true ->
  ensureRegion host cfg g h = (Returned r, g, []).
Proof.
  intros Hg Hr. destruct (ensureRegion_run g h) as (r' & evs & HR & ->).
  destruct g as [cached cl]. cbn [resolvedRegion s3Client] in *. subst cached.
  destruct HR as [r' Hc _ | Hc _ | loc Hc _ | e Hc _];
    cbn [resolvedRegion Js.truthy_opt] in Hc; congruence.
Qed.

Lemma getS3Client_cached g h c :
  s3Client g = Some c -> getS3Client host cfg g h = (Returned c, g, []).
Proof.
  intros Hc. unfold getS3Client. unfold bind at 1. unfold get_s3Client.
  rewrite Hc. reflexivity.
Qed.

(** X14. [ensureRegion] never throws and looks the bucket up at most
    once; the region it returns is cached, and calling it again, whatever
    happened in between outside the process, returns the same region
    without any event and without changing the globals. *)
Theorem ensureRegion_is_cached g h h2 :
  exists r,
    outcome_of (ensureRegion host cfg g h) = Returned r /\
    r <> ""%string /\
    length (discoveries (events_of (ensureRegion host cfg g h))) <= 1 /\
    put_attempts (events_of (ensureRegion host cfg g h)) = [] /\
    resolvedRegion (globals_of (ensureRegion host cfg g h)) = Some r /\
    ensureRegion host cfg (globals_of (ensureRegion host cfg g h)) h2
      = (Returned r, globals_of (ensureRegion host cfg g h), []).
Proof.
  destruct (ensureRegion_run g h) as (r & evs & HR & ->).
  pose proof (EnsureRun_truthy g r evs HR) as Ht.
  exists r. unfold outcome_of, globals_of, events_of; cbn [fst snd].
  split; [reflexivity|]. split; [now apply truthy_true_iff|].
  split; [destruct HR; cbn; lia|]. split; [destruct HR; reflexivity|].
  split; [reflexivity|]. now apply ensureRegion_cached.
Qed.

(** X15. [getS3Client] never throws and makes no put; the client it
    returns is kept, so a second call returns the same client without any
    event.  When it had to build the client, the client is bound to the
    region that is now cached. *)
Theorem getS3Client_is_cached g h h2 :
  exists c,
    outcome_of (getS3Client host cfg g h) = Returned c /\
    put_attempts (events_of (getS3Client host cfg g h)) = [] /\
    s3Client (globals_of (getS3Client host cfg g h)) = Some c /\
    getS3Client host cfg (globals_of (getS3Client host cfg g h)) h2
      = (Returned c, globals_of (getS3Client host cfg g h), []) /\
    (s3Client g = None ->
     resolvedRegion (globals_of (getS3Client host cfg g h))
       = Some (client_region c)).
Proof.
  destruct (getS3Client_run g h) as (c & g' & evs & -> & Hcases).
  exists c. unfold outcome_of, globals_of, events_of; cbn [fst snd].
  destruct Hcases as [(Hc & -> & ->) | (Hn & r & HR & -> & ->)].
  - split; [reflexivity|]. split; [reflexivity|]. split; [exact Hc|].
    split; [now apply getS3Client_cached|]. congruence.
  - split; [reflexivity|]. split; [destruct HR; reflexivity|].
    split; [reflexivity|]. split; [now apply getS3Client_cached|].
    reflexivity.
Qed.

(** ** What one write does *)

(** X16. One write draws exactly one identifier, makes at most two put
    attempts and at most two bucket-location lookups, never calls the
    model, and adds at most six events in all. *)
Theorem persistScanResult_call_budget image g h :
  length (key_generations (events_of (persistScanResult host cfg image g h))) = 1 /\
  length (put_attempts (events_of (persistScanResult host cfg image g h))) <= 2 /\
  1 <= length (put_attempts (events_of (persistScanResult host cfg image g h))) /\
  length (discoveries (events_of (persistScanResult host cfg image g h))) <= 2 /\
  analysis_calls (events_of (persistScanResult host cfg image g h)) = [] /\
  length (events_of (persistScanResult host cfg image g h)) <= 6.
Proof.
  persist_paths image g h; cbn [analysis_calls app length]; repeat split; lia.
Qed.

Lemma persistScanResult_returned image g h out :
  outcome_of (persistScanResult host cfg image g h) = Returned out ->
  exists before c,
    put_attempts (events_of (persistScanResult host cfg image g h))
      = before ++ [(c, put_of host cfg (objectKey out) image, Returned tt)] /\
    (client_paired g -> region out = client_region c).
Proof.
  intros Hout.
  destruct (persistScanResult_run image g h)
    as (id & iso & r & evR & o & g' & evP & HR & HP & Hrun).
  rewrite Hrun in *. unfold outcome_of, events_of in *; cbn [fst snd] in *.
  assert (Hc : client_paired g ->
               client_region match s3Client g with
                             | Some c => c
                             | None => uploadClient cfg r
                             end = r).
  { intros Hg. pose proof (EnsureRun_paired g r evR Hg HR) as Hp.
    destruct (s3Client g); [exact Hp|reflexivity]. }
  assert (HevR : put_attempts evR = []) by (destruct HR; reflexivity).
  assert (Happ : forall evs, put_attempts (evR ++ evs) = put_attempts evs).
  { intros evs. destruct HR; reflexivity. }
  cbn [put_attempts]. rewrite Happ.
  destruct HP; cbn [map_outcome] in Hout; try discriminate;
    injection Hout as <-; cbn [put_attempts objectKey region].
  - eexists [], _. split; [reflexivity|]. intros Hg. now rewrite (Hc Hg).
  - eexists [_], _. split; [reflexivity|]. reflexivity.
Qed.

(** X17. When a write returns, its last put attempt succeeded, and that
    put sent the returned key to the configured bucket as image/jpeg with
    the decoded image as body.  When the write throws, no put of its trace
    succeeded: a failed write stored nothing. *)
Theorem persistScanResult_returns_iff_stored image g h :
  (forall out,
     outcome_of (persistScanResult host cfg image g h) = Returned out ->
     exists before c cmd,
       put_attempts (events_of (persistScanResult host cfg image g h))
         = before ++ [(c, cmd, Returned tt)] /\
       Key cmd = objectKey out /\
       Bucket cmd = bucket cfg /\
       ContentType cmd = "image/jpeg"%string /\
       Body cmd = base64ToBuffer host image) /\
  (forall e,
     outcome_of (persistScanResult host cfg image g h) = Threw e ->
     forall c cmd u,
       ~ In (c, cmd, Returned u)
            (put_attempts (events_of (persistScanResult host cfg image g h)))).
Proof.
  split.
  - intros out Hout.
    destruct (persistScanResult_returned image g h out Hout)
      as (before & c & Hputs & _).
    exists before, c, (put_of host cfg (objectKey out) image).
    split; [exact Hputs|]. repeat split.
  - intros e He c cmd u Hin. persist_paths image g h;
      cbn [map_outcome] in He; try discriminate;
      cbn [In] in Hin; intuition congruence.
Qed.

(** ** What one request does *)

Lemma handleScan_returned image g h res :
  outcome_of (handleScan host cfg image g h) = Returned res ->
  exists an a out,
    analyzeImage host image g h =
      (Returned an, g, [EvGenerateContent (strip_known_data_url image) a]) /\
    outcome_of
      (persistScanResult host cfg image g
         (h ++ [EvGenerateContent (strip_known_data_url image) a]))
      = Returned out /\
    res = {| analysis := an; recordId := objectKey out;
             s3Url := public_url (bucket cfg) (region out) (objectKey out) |} /\
    events_of (handleScan host cfg image g h) =
      EvGenerateContent (strip_known_data_url image) a ::
      events_of
        (persistScanResult host cfg image g
           (h ++ [EvGenerateContent (strip_known_data_url image) a])).
Proof.
  intros Hres.
  destruct (analyzeImage_run image g h) as (oa & a & Ha & _).
  assert (Hs :
    handleScan host cfg image g h =
      match oa with
      | Returned an =>
          (map_outcome
             (fun out =>
                {| analysis := an; recordId := objectKey out;
                   s3Url := public_url (bucket cfg) (region out) (objectKey out) |})
             (outcome_of
                (persistScanResult host cfg image g
                   (h ++ [EvGenerateContent (strip_known_data_url image) a]))),
           globals_of
             (persistScanResult host cfg image g
                (h ++ [EvGenerateContent (strip_known_data_url image) a])),
           EvGenerateContent (strip_known_data_url image) a ::
           events_of
             (persistScanResult host cfg image g
                (h ++ [EvGenerateContent (strip_known_data_url image) a])))
      | Threw e =>
          (Threw e, g, [EvGenerateContent (strip_known_data_url image) a])
      end).
  { unfold handleScan. unfold bind at 1. rewrite Ha.
    destruct oa as [an|e]; [|reflexivity].
    cbv zeta. unfold bind, ret, outcome_of, globals_of, events_of.
    destruct (persistScanResult host cfg image g _) as [[[out|e] g1] ev1];
      cbn [fst snd map_outcome app]; rewrite ?app_nil_r; reflexivity. }
  rewrite Hs in *. destruct oa as [an|e]; [|discriminate].
  unfold outcome_of at 1 in Hres; cbn [fst] in Hres.
  destruct (outcome_of (persistScanResult host cfg image g _)) as [out|e] eqn:E;
    cbn [map_outcome] in Hres; [|discriminate].
  injection Hres as <-. exists an, a, out.
  split; [exact Ha|]. split; [exact E|]. split; reflexivity.
Qed.

(** ** Client and cache across a whole process *)

Lemma never_redirected_app f a b :
  never_redirected f (a ++ b) = never_redirected f a && never_redirected f b.
Proof.
  induction a as [|e a IH]; [reflexivity|].
  destruct e as [? ? ?|? ? [?|?]| | |]; cbn [app never_redirected]; auto.
  now rewrite IH, andb_assoc.
Qed.

Lemma persistScanResult_keeps_paired_unless_redirected image g h :
  client_paired g ->
  never_redirected is_region_mismatch
    (events_of (persistScanResult host cfg image g h)) = true ->
  client_paired (globals_of (persistScanResult host cfg image g h)).
Proof.
  intros Hg Hnr. apply persistScanResult_keeps_paired_without_retry; [exact Hg|].
  persist_paths image g h; cbn [never_redirected app] in Hnr; auto.
  all: match goal with
       | Hm : is_region_mismatch _ = true |- _ => rewrite Hm in Hnr
       end; discriminate Hnr.
Qed.

Lemma run_op_keeps_paired_unless_redirected op g h :
  client_paired g ->
  never_redirected is_region_mismatch (snd (run_op host cfg op g h)) = true ->
  client_paired (fst (run_op host cfg op g h)).
Proof.
  intros Hg. destruct op as [| |image|image|req|req_body];
    unfold run_op, after; cbn [fst snd]; rewrite never_redirected_app;
    intros Hnr; apply andb_prop in Hnr as [_ Hnr].
  - now apply ensureRegion_keeps_paired.
  - now apply getS3Client_keeps_paired.
  - now apply persistScanResult_keeps_paired_unless_redirected.
  - destruct (handleScan_run image g h) as (oa & a & build & _ & Hrun).
    destruct oa as [an|e]; [cbv zeta in Hrun|]; rewrite Hrun in *;
      unfold globals_of at 1; unfold events_of at 1 in Hnr;
      cbn [fst snd never_redirected] in *; [|exact Hg].
    now apply persistScanResult_keeps_paired_unless_redirected.
  - revert Hnr. unfold handler.
    destruct (negb (method req =? "POST")%string); [intros _; exact Hg|].
    destruct (valid_image (image_of (body req))) as [image|];
      [|intros _; exact Hg].
    rewrite scan_and_respond_run.
    unfold globals_of at 1, events_of at 1; cbn [fst snd]. intros Hnr.
    destruct (handleScan_run image g h) as (oa & a & build & _ & Hrun).
    destruct oa as [an|e]; [cbv zeta in Hrun|]; rewrite Hrun in *;
      unfold globals_of at 1; unfold events_of at 1 in Hnr;
      cbn [fst snd never_redirected] in *; [|exact Hg].
    now apply persistScanResult_keeps_paired_unless_redirected.
  - revert Hnr. unfold api_scan_route.
    destruct (valid_image (image_of req_body)) as [image|];
      [|intros _; exact Hg].
    rewrite scan_and_respond_run.
    unfold globals_of at 1, events_of at 1; cbn [fst snd]. intros Hnr.
    destruct (handleScan_run image g h) as (oa & a & build & _ & Hrun).
    destruct oa as [an|e]; [cbv zeta in Hrun|]; rewrite Hrun in *;
      unfold globals_of at 1; unfold events_of at 1 in Hnr;
      cbn [fst snd never_redirected] in *; [|exact Hg].
    now apply persistScanResult_keeps_paired_unless_redirected.
Qed.

Lemma run_op_extends op g h :
  exists more, snd (run_op host cfg op g h) = h ++ more.
Proof.
  destruct op; unfold run_op, after; cbn [snd]; eexists; reflexivity.
Qed.

Lemma run_ops_extends ops :
  forall g h, exists more, snd (run_ops host cfg ops g h) = h ++ more.
Proof.
  induction ops as [|op rest IH]; intros g h.
  - exists []. cbn. now rewrite app_nil_r.
  - cbn [run_ops]. destruct (run_op_extends op g h) as [m1 H1].
    destruct (run_op host cfg op g h) as [g1 h1]. cbn [snd] in H1. subst h1.
    destruct (IH g1 (h ++ m1)) as [m2 H2]. exists (m1 ++ m2).
    now rewrite H2, app_assoc.
Qed.

Lemma run_ops_keeps_paired_unless_redirected ops :
  forall g h,
    client_paired g ->
    never_redirected is_region_mismatch (snd (run_ops host cfg ops g h)) = true ->
    client_paired (fst (run_ops host cfg ops g h)).
Proof.
  induction ops as [|op rest IH]; intros g h Hg Hnr; [exact Hg|].
  cbn [run_ops] in *.
  pose proof (run_op_keeps_paired_unless_redirected op g h Hg) as Hstep.
  destruct (run_op host cfg op g h) as [g1 h1]. cbn [fst snd] in Hstep.
  apply IH; [|exact Hnr]. apply Hstep.
  destruct (run_ops_extends rest g1 h1) as [more Hmore].
  rewrite Hmore, never_redirected_app in Hnr.
  now apply andb_prop in Hnr as [Hnr _].
Qed.

(** X19. In a process whose history holds no put that failed with the
    region-mismatch signature, client and cache are paired after any
    sequence of operations: a live client is bound to the cached region,
    which is not empty. *)
Theorem client_and_cache_paired_unless_redirected ops g h :
  state_after host cfg ops = (g, h) ->
  never_redirected is_region_mismatch h = true ->
  client_paired g /\ client_matches_cache g = true.
Proof.
  intros Hst Hnr.
  assert (Hg : client_paired g).
  { pose proof (run_ops_keeps_paired_unless_redirected ops initial_globals [] I)
      as Hinv.
    unfold state_after in Hst. rewrite Hst in Hinv. now apply Hinv. }
  split; [exact Hg|]. now apply client_paired_matches.
Qed.

(** X20. The serverless handler never throws: it always answers, with
    405 when the method is not POST, else with 400 when the image is not a
    non-empty string (the empty string included), else with 200 and the
    result of [handleScan] when that returned, and with 500 and the detail
    of the error when it threw.  It touches neither the model nor the
    storage unless the image was accepted. *)
Theorem handler_always_responds (req : Request) g h :
  exists resp,
    outcome_of (handler host cfg req g h) = Returned resp /\
    In (status resp) [200; 400; 405; 500] /\
    (status resp = 405 <-> method req <> "POST"%string) /\
    (status resp = 400 <->
     method req = "POST"%string /\ valid_image (image_of (body req)) = None) /\
    (image_of (body req) = JsString ""%string ->
     method req = "POST"%string -> resp = missing_image) /\
    (forall image result,
       method req = "POST"%string ->
       valid_image (image_of (body req)) = Some image ->
       outcome_of (handleScan host cfg image g h) = Returned result ->
       resp = {| status := 200; headers := []; payload := ResultBody result |}) /\
    (status resp = 400 \/ status resp = 405 ->
     handler host cfg req g h = (Returned resp, g, [])).
Proof.
  unfold handler.
  destruct (String.eqb_spec (method req) "POST") as [Hm|Hm]; cbn [negb].
  - destruct (valid_image (image_of (body req))) as [image|] eqn:Hv.
    + rewrite scan_and_respond_run. unfold outcome_of at 1; cbn [fst].
      eexists. split; [reflexivity|].
      destruct (outcome_of (handleScan host cfg image g h)) as [result|e] eqn:E;
        cbn [status].
      * split; [cbn; auto|]. split; [split; [discriminate|congruence]|].
        split; [split; [discriminate|intros [_ H]; discriminate]|].
        split; [intros Hi; rewrite Hi in Hv; discriminate|].
        split; [intros i r _ [= <-] Hr; rewrite E in Hr; congruence|].
        intros [H|H]; discriminate.
      * split; [cbn; auto|]. split; [split; [discriminate|congruence]|].
        split; [split; [discriminate|intros [_ H]; discriminate]|].
        split; [intros Hi; rewrite Hi in Hv; discriminate|].
        split; [intros i r _ [= <-] Hr; rewrite E in Hr; discriminate|].
        intros [H|H]; discriminate.
    + exists missing_image. unfold outcome_of, ret; cbn [fst status missing_image].
      split; [reflexivity|]. split; [cbn; auto|].
      split; [split; [discriminate|congruence]|].
      split; [split; auto|]. split; [auto|].
      split; [intros i r _ H; discriminate|]. reflexivity.
  - exists methodNotAllowed.
    unfold outcome_of, ret; cbn [fst status methodNotAllowed].
    split; [reflexivity|]. split; [cbn; auto|].
    split; [split; auto|].
    split; [split; [discriminate|intros [H _]; contradiction]|].
    split; [intros _ H; contradiction|].
    split; [intros i r H; contradiction|]. reflexivity.
Qed.

End Runs.

(** ** Concrete runs *)

Lemma persistScanResult_other_error_no_retry_witness :
  nth_error
    (put_attempts
       (events_of (persistScanResult put_denied_host discovering_cfg
                     sample_image initial_globals []))) 0
    = Some (uploadClient discovering_cfg "eu-west-1",
            put_of put_denied_host discovering_cfg
              "person_image/2024-05-01T10-20-30-456Z-3f2c.jpg" sample_image,
            Threw access_denied) /\
  is_region_mismatch access_denied = false /\
  outcome_of (persistScanResult put_denied_host discovering_cfg
                sample_image initial_globals []) = Threw access_denied /\
  length
    (put_attempts
       (events_of (persistScanResult put_denied_host discovering_cfg
                     sample_image initial_globals []))) = 1 /\
  after_first_put
    (events_of (persistScanResult put_denied_host discovering_cfg
                  sample_image initial_globals [])) = [].
Proof.
  split; [vm_compute; reflexivity|]. split; [vm_compute; reflexivity|].
  apply (persistScanResult_other_error_no_retry put_denied_host discovering_cfg
           sample_image initial_globals []
           (uploadClient discovering_cfg "eu-west-1")
           (put_of put_denied_host discovering_cfg
              "person_image/2024-05-01T10-20-30-456Z-3f2c.jpg" sample_image)
           access_denied).
  - vm_compute; reflexivity.
  - vm_compute; reflexivity.
Defined.

Lemma persistScanResult_retry_failure_is_final_witness :
  is_region_mismatch permanent_redirect = true /\
  outcome_of (persistScanResult retry_fails_host discovering_cfg
                sample_image initial_globals []) = Threw slow_down /\
  length
    (put_attempts
       (events_of (persistScanResult retry_fails_host discovering_cfg
                     sample_image initial_globals []))) = 2.
Proof.
  split; [vm_compute; reflexivity|].
  apply (persistScanResult_retry_failure_is_final retry_fails_host
           discovering_cfg sample_image initial_globals []
           (uploadClient discovering_cfg "us-east-1")
           (put_of retry_fails_host discovering_cfg
              "person_image/2024-05-01T10-20-30-456Z-3f2c.jpg" sample_image)
           permanent_redirect
           (uploadClient discovering_cfg "ap-southeast-1")
           (put_of retry_fails_host discovering_cfg
              "person_image/2024-05-01T10-20-30-456Z-3f2c.jpg" sample_image)
           slow_down).
  - vm_compute; reflexivity.
  - vm_compute; reflexivity.
  - vm_compute; reflexivity.
Defined.

Lemma persistScanResult_retry_same_key_and_body_witness :
  nth_error
    (put_attempts
       (events_of (persistScanResult redirected_host discovering_cfg
                     sample_image initial_globals []))) 1
    = Some (uploadClient discovering_cfg "ap-southeast-1",
            put_of redirected_host discovering_cfg
              "person_image/2024-05-01T10-20-30-456Z-3f2c.jpg" sample_image,
            Returned tt) /\
  (put_of redirected_host discovering_cfg
     "person_image/2024-05-01T10-20-30-456Z-3f2c.jpg" sample_image
   = put_of redirected_host discovering_cfg
       "person_image/2024-05-01T10-20-30-456Z-3f2c.jpg" sample_image /\
   Body (put_of redirected_host discovering_cfg
           "person_image/2024-05-01T10-20-30-456Z-3f2c.jpg" sample_image)
   = base64ToBuffer redirected_host sample_image /\
   exists id iso,
     Key (put_of redirected_host discovering_cfg
            "person_image/2024-05-01T10-20-30-456Z-3f2c.jpg" sample_image)
     = key_of discovering_cfg id iso /\
     key_generations
       (events_of (persistScanResult redirected_host discovering_cfg
                     sample_image initial_globals [])) = [id]).
Proof.
  split; [vm_compute; reflexivity|].
  apply (persistScanResult_retry_same_key_and_body redirected_host
           discovering_cfg sample_image initial_globals []
           (uploadClient discovering_cfg "us-east-1")
           (put_of redirected_host discovering_cfg
              "person_image/2024-05-01T10-20-30-456Z-3f2c.jpg" sample_image)
           (Threw permanent_redirect)
           (uploadClient discovering_cfg "ap-southeast-1")
           (put_of redirected_host discovering_cfg
              "person_image/2024-05-01T10-20-30-456Z-3f2c.jpg" sample_image)
           (Returned tt)).
  - vm_compute; reflexivity.
  - vm_compute; reflexivity.
Defined.

(** C1 on a concrete run.  The first put is redirected, the second lookup
    answers ap-southeast-1 and the retry succeeds: the write returns the key
    with that region, yet the cached region is left empty, and the next
    write of the same process asks for the bucket location again. *)
Theorem retry_success_leaves_cache_empty :
  outcome_of (persistScanResult redirected_host discovering_cfg
                sample_image initial_globals [])
    = Returned {| objectKey := "person_image/2024-05-01T10-20-30-456Z-3f2c.jpg";
                  region := "ap-southeast-1" |} /\
  map (fun p => (client_region (fst (fst p)), snd p))
      (put_attempts
         (events_of (persistScanResult redirected_host discovering_cfg
                       sample_image initial_globals [])))
    = [("us-east-1"%string, Threw permanent_redirect);
       ("ap-southeast-1"%string, Returned tt)] /\
  resolvedRegion
    (globals_of (persistScanResult redirected_host discovering_cfg
                   sample_image initial_globals [])) = None /\
  discoveries
    (events_of
       (persistScanResult redirected_host discovering_cfg sample_image
          (fst (state_after redirected_host discovering_cfg
                  [OpPersistScanResult sample_image]))
          (snd (state_after redirected_host discovering_cfg
                  [OpPersistScanResult sample_image]))))
    = [Threw network_down].
Proof. repeat split; vm_compute; reflexivity. Qed.

(** C2 on a concrete run.  After one request that went through the retry
    the process holds a client bound to ap-southeast-1 and no cached region;
    after the next request the cache says us-east-1 while the client, which
    did the put, is still bound to ap-southeast-1, and the URL handed out
    names the wrong region. *)
Theorem retry_success_unpairs_client_and_cache :
  fst (state_after redirected_host discovering_cfg [OpHandleScan sample_image])
    = {| resolvedRegion := None;
         s3Client := Some (uploadClient discovering_cfg "ap-southeast-1") |} /\
  client_matches_cache
    (fst (state_after redirected_host discovering_cfg
            [OpHandleScan sample_image])) = false /\
  fst (state_after redirected_host discovering_cfg
         [OpHandleScan sample_image; OpHandleScan sample_image])
    = {| resolvedRegion := Some "us-east-1";
         s3Client := Some (uploadClient discovering_cfg "ap-southeast-1") |} /\
  client_matches_cache
    (fst (state_after redirected_host discovering_cfg
            [OpHandleScan sample_image; OpHandleScan sample_image])) = false /\
  map_outcome s3Url
    (outcome_of
       (handleScan redirected_host discovering_cfg sample_image
          (fst (state_after redirected_host discovering_cfg
                  [OpHandleScan sample_image]))
          (snd (state_after redirected_host discovering_cfg
                  [OpHandleScan sample_image]))))
    = Returned
        "https://faces.s3.amazonaws.com/person_image/2024-05-01T10-20-30-456Z-9a7e.jpg"%string.
Proof. repeat split; vm_compute; reflexivity. Qed.

(** C3 fails on the retry path: the second lookup is refused and the write
    throws that refusal. *)
Lemma retry_lookup_failure_reaches_caller :
  discoveries
    (events_of (persistScanResult lookup_denied_host discovering_cfg
                  sample_image initial_globals []))
    = [Returned None; Threw access_denied] /\
  outcome_of (persistScanResult lookup_denied_host discovering_cfg
                sample_image initial_globals []) = Threw access_denied /\
  resolvedRegion
    (globals_of (persistScanResult lookup_denied_host discovering_cfg
                   sample_image initial_globals [])) <> Some "us-east-1"%string.
Proof. repeat split; vm_compute; [reflexivity..|discriminate]. Qed.

Lemma lookup_failure_recovered_in_ensureRegion_only_witness :
  (nth_error
     (put_attempts
        (events_of (persistScanResult lookup_timeout_host discovering_cfg
                      sample_image initial_globals []))) 0
   = Some (uploadClient discovering_cfg "us-east-1",
           put_of lookup_timeout_host discovering_cfg
             "person_image/2024-05-01T10-20-30-456Z-3f2c.jpg" sample_image,
           Returned tt) /\
   exists out,
     outcome_of (persistScanResult lookup_timeout_host discovering_cfg
                   sample_image initial_globals []) = Returned out) /\
  (is_region_mismatch permanent_redirect = true /\
   nth_error
     (discoveries
        (after_first_put
           (events_of (persistScanResult lookup_denied_host discovering_cfg
                         sample_image initial_globals [])))) 0
   = Some (Threw access_denied) /\
   outcome_of (persistScanResult lookup_denied_host discovering_cfg
                 sample_image initial_globals []) = Threw access_denied /\
   globals_of (persistScanResult lookup_denied_host discovering_cfg
                 sample_image initial_globals [])
   = {| resolvedRegion := None; s3Client := None |}).
Proof.
  split.
  - split; [vm_compute; reflexivity|].
    apply (proj1 (proj2 (lookup_failure_recovered_in_ensureRegion_only
                           lookup_timeout_host discovering_cfg sample_image
                           initial_globals []))
             (uploadClient discovering_cfg "us-east-1")
             (put_of lookup_timeout_host discovering_cfg
                "person_image/2024-05-01T10-20-30-456Z-3f2c.jpg" sample_image)
             tt).
    vm_compute; reflexivity.
  - split; [vm_compute; reflexivity|]. split; [vm_compute; reflexivity|].
    apply (proj2 (proj2 (lookup_failure_recovered_in_ensureRegion_only
                           lookup_denied_host discovering_cfg sample_image
                           initial_globals []))
             (uploadClient discovering_cfg "us-east-1")
             (put_of lookup_denied_host discovering_cfg
                "person_image/2024-05-01T10-20-30-456Z-3f2c.jpg" sample_image)
             permanent_redirect access_denied).
    + vm_compute; reflexivity.
    + vm_compute; reflexivity.
    + vm_compute; reflexivity.
Defined.

(** C4 fails on the retry path: with eu-west-1 configured, a redirected
    first put is followed by a bucket-location lookup. *)
Lemma configured_region_retry_still_discovers :
  preferredRegion fixed_cfg <> ""%string /\
  outcome_of (ensureRegion misconfigured_host fixed_cfg initial_globals [])
    = Returned "eu-west-1"%string /\
  discoveries
    (events_of (persistScanResult misconfigured_host fixed_cfg
                  sample_image initial_globals []))
    = [Returned (Some "eu-central-1"%string)].
Proof. repeat split; vm_compute; [discriminate|reflexivity..]. Qed.

Lemma configured_region_skips_discovery_witness :
  preferredRegion fixed_cfg <> ""%string /\
  ensureRegion quiet_host fixed_cfg
    (fst (state_after quiet_host fixed_cfg [OpHandleScan sample_image]))
    (snd (state_after quiet_host fixed_cfg [OpHandleScan sample_image]))
  = (Returned (normalizeRegion (Some (preferredRegion fixed_cfg))),
     {| resolvedRegion := Some (normalizeRegion (Some (preferredRegion fixed_cfg)));
        s3Client :=
          s3Client (fst (state_after quiet_host fixed_cfg
                           [OpHandleScan sample_image])) |}, []) /\
  discoveries
    (events_of
       (persistScanResult quiet_host fixed_cfg sample_image
          (fst (state_after quiet_host fixed_cfg [OpHandleScan sample_image]))
          (snd (state_after quiet_host fixed_cfg [OpHandleScan sample_image]))))
  = [] /\
  is_region_mismatch permanent_redirect = true /\
  exists answer rest,
    discoveries
      (events_of (persistScanResult misconfigured_host fixed_cfg sample_image
                    initial_globals [])) = [answer] /\
    after_first_put
      (events_of (persistScanResult misconfigured_host fixed_cfg sample_image
                    initial_globals []))
    = EvGetBucketLocation (discoveryClient fixed_cfg) (bucket fixed_cfg) answer
      :: rest.
Proof.
  split; [vm_compute; discriminate|].
  destruct (configured_region_skips_discovery quiet_host fixed_cfg
              [OpHandleScan sample_image]
              (fst (state_after quiet_host fixed_cfg [OpHandleScan sample_image]))
              (snd (state_after quiet_host fixed_cfg [OpHandleScan sample_image]))
              sample_image)
    as (Hensure & _ & Hwrite & _).
  - vm_compute; discriminate.
  - vm_compute; reflexivity.
  - split; [exact Hensure|]. split.
    + apply Hwrite.
      intros c cmd e Hfirst. vm_compute in Hfirst. discriminate Hfirst.
    + split; [vm_compute; reflexivity|].
      destruct (configured_region_skips_discovery misconfigured_host fixed_cfg
                  [] initial_globals [] sample_image)
        as (_ & _ & _ & Hretry).
      * vm_compute; discriminate.
      * reflexivity.
      * apply (Hretry (uploadClient fixed_cfg "eu-west-1")
                 (put_of misconfigured_host fixed_cfg
                    "person_image/2024-05-01T10-20-30-456Z-3f2c.jpg"
                    sample_image)
                 permanent_redirect).
        -- vm_compute; reflexivity.
        -- vm_compute; reflexivity.
Defined.

Lemma handleScan_analysis_failure_writes_nothing_witness :
  outcome_of (analyzeImage model_down_host sample_image initial_globals [])
    = Threw network_down /\
  handleScan model_down_host discovering_cfg sample_image initial_globals []
    = (Threw network_down, initial_globals,
       events_of (analyzeImage model_down_host sample_image initial_globals [])) /\
  put_attempts
    (events_of (handleScan model_down_host discovering_cfg sample_image
                  initial_globals [])) = [].
Proof.
  split; [vm_compute; reflexivity|].
  destruct (handleScan_analysis_failure_writes_nothing model_down_host
              discovering_cfg sample_image initial_globals [] network_down)
    as (Hrun & Hputs & _).
  - vm_compute; reflexivity.
  - split; [exact Hrun|exact Hputs].
Defined.

Lemma transports_status_codes_witness :
  (method post_with_number = "POST"%string /\
   handler quiet_host discovering_cfg post_with_number initial_globals []
     = (Returned missing_image, initial_globals, []) /\
   api_scan_route quiet_host discovering_cfg (body post_with_number)
     initial_globals []
     = (Returned missing_image, initial_globals, [])) /\
  (method get_without_image <> "POST"%string /\
   handler quiet_host discovering_cfg get_without_image initial_globals []
     = (Returned methodNotAllowed, initial_globals, [])) /\
  (valid_image (image_of (body post_with_image)) = Some sample_image /\
   outcome_of (handleScan model_down_host discovering_cfg sample_image
                 initial_globals []) = Threw network_down /\
   outcome_of (handler model_down_host discovering_cfg post_with_image
                 initial_globals [])
     = Returned {| status := 500; headers := [];
                   payload := DetailBody (failure_detail network_down) |} /\
   outcome_of (api_scan_route model_down_host discovering_cfg
                 (body post_with_image) initial_globals [])
     = Returned {| status := 500; headers := [];
                   payload := DetailBody (failure_detail network_down) |}).
Proof.
  split; [|split].
  - destruct (transports_status_codes quiet_host discovering_cfg
                post_with_number (body post_with_number) initial_globals [])
      as (H400 & Hroute & _).
    split; [reflexivity|]. split.
    + apply H400; [reflexivity|]. intros s; vm_compute; discriminate.
    + apply Hroute. intros s; vm_compute; discriminate.
  - destruct (transports_status_codes quiet_host discovering_cfg
                get_without_image JsUndefined initial_globals [])
      as (_ & _ & H405 & _).
    split; [vm_compute; discriminate|].
    apply H405. vm_compute; discriminate.
  - destruct (transports_status_codes model_down_host discovering_cfg
                post_with_image (body post_with_image) initial_globals [])
      as (_ & _ & _ & H500 & Hroute & _).
    split; [vm_compute; reflexivity|]. split; [vm_compute; reflexivity|]. split.
    + apply (H500 sample_image network_down);
        [reflexivity | vm_compute; reflexivity | vm_compute; reflexivity].
    + apply (Hroute sample_image network_down);
        [vm_compute; reflexivity | vm_compute; reflexivity].
Defined.

(** ** Strings, again *)

Lemma append_nil_r (s : string) : (s ++ "")%string = s.
Proof. induction s as [|c s IH]; simpl; congruence. Qed.

Lemma append_assoc (a b c : string) :
  ((a ++ b) ++ c)%string = (a ++ (b ++ c))%string.
Proof. induction a as [|x a IH]; simpl; congruence. Qed.

Lemma length_append (a b : string) :
  String.length (a ++ b) = String.length a + String.length b.
Proof. induction a as [|x a IH]; simpl; congruence. Qed.

Lemma append_cancel_l (a b c : string) :
  (a ++ b)%string = (a ++ c)%string -> b = c.
Proof. induction a as [|x a IH]; simpl; [auto|]. intros [= H]. auto. Qed.

(** Two splits of one string whose right parts are as long are the same
    split. *)
Lemma append_same_suffix_length (a b c d : string) :
  (a ++ b)%string = (c ++ d)%string ->
  String.length b = String.length d ->
  a = c /\ b = d.
Proof.
  revert c. induction a as [|x a IH]; intros [|y c] H Hlen; simpl in H.
  - auto.
  - apply (f_equal String.length) in H. simpl in H.
    rewrite length_append in H. lia.
  - apply (f_equal String.length) in H. simpl in H.
    rewrite length_append in H. lia.
  - injection H as -> H. destruct (IH c H Hlen) as [-> ->]. auto.
Qed.

Lemma startsWith_app (p rest : string) : Js.startsWith p (p ++ rest) = true.
Proof.
  induction p as [|c p IH]; simpl; [reflexivity|].
  now rewrite Ascii.eqb_refl, IH.
Qed.

Lemma startsWith_split (p s : string) :
  Js.startsWith p s = true -> exists rest, s = (p ++ rest)%string.
Proof.
  revert s. induction p as [|c p IH]; intros s H; simpl in *.
  - now exists s.
  - destruct s as [|d s]; [discriminate|].
    apply andb_prop in H as [Hc Hp]. apply Ascii.eqb_eq in Hc as ->.
    destruct (IH s Hp) as [rest ->]. now exists rest.
Qed.

Lemma drop_app (p rest : string) : Js.drop (String.length p) (p ++ rest) = rest.
Proof. induction p as [|c p IH]; simpl; [now destruct rest|exact IH]. Qed.

Lemma includes_unfold (needle hay : string) :
  Js.includes needle hay =
    Js.startsWith needle hay ||
    match hay with
    | EmptyString => false
    | String _ hay' => Js.includes needle hay'
    end.
Proof. destruct hay; reflexivity. Qed.

Lemma includes_split (needle hay : string) :
  Js.includes needle hay = true <->
  exists pre post, hay = (pre ++ needle ++ post)%string.
Proof.
  split.
  - induction hay as [|c hay IH]; simpl; intros H.
    + rewrite orb_false_r in H. apply startsWith_split in H as [rest ->].
      now exists ""%string, rest.
    + apply orb_prop in H as [H|H].
      * apply startsWith_split in H as [rest ->]. now exists ""%string, rest.
      * destruct (IH H) as (pre & post & ->). now exists (String c pre), post.
  - intros (pre & post & ->). induction pre as [|c pre IH].
    + cbn [String.append]. rewrite includes_unfold. now rewrite startsWith_app.
    + cbn [String.append]. rewrite includes_unfold.
      cbn [String.append] in IH. now rewrite IH, orb_true_r.
Qed.

(** ** Start-up *)

Lemma unsnoc_app (s : string) (c : ascii) :
  unsnoc (s ++ String c "") = Some (s, c).
Proof. induction s as [|x s IH]; simpl; [reflexivity|now rewrite IH]. Qed.

Lemma unsnoc_Some (s init : string) (last : ascii) :
  unsnoc s = Some (init, last) -> s = (init ++ String last "")%string.
Proof.
  revert init. induction s as [|x s IH]; intros init H; simpl in H;
    [discriminate|].
  destruct (unsnoc s) as [[i l]|] eqn:E.
  - injection H as <- <-. simpl. now rewrite (IH i eq_refl).
  - injection H as <- <-. destruct s; [reflexivity|].
    simpl in E. destruct (unsnoc s) as [[? ?]|]; discriminate.
Qed.

(** X1. [stripQuotes] removes exactly one enclosing pair of double quotes,
    and only when nothing between them is a line terminator; a value that
    is not written between two double quotes is returned as it is, and an
    unset variable reads as the empty string. *)
Theorem stripQuotes_spec :
  stripQuotes None = ""%string /\
  (forall inner,
     has_line_terminator inner = false ->
     stripQuotes (Some (quoted inner)) = inner) /\
  (forall inner,
     has_line_terminator inner = true ->
     stripQuotes (Some (quoted inner)) = quoted inner) /\
  (forall s, (forall inner, s <> quoted inner) -> stripQuotes (Some s) = s).
Proof.
  split; [reflexivity|]. split; [|split].
  - intros inner H. unfold stripQuotes, quoted, strip_quote_pair.
    now rewrite Ascii.eqb_refl, unsnoc_app, Ascii.eqb_refl, H.
  - intros inner H. unfold stripQuotes, quoted, strip_quote_pair.
    now rewrite Ascii.eqb_refl, unsnoc_app, Ascii.eqb_refl, H.
  - intros s Hs. unfold stripQuotes, strip_quote_pair.
    destruct s as [|c rest]; [reflexivity|].
    destruct (Ascii.eqb_spec c double_quote) as [->|_]; [|reflexivity].
    destruct (unsnoc rest) as [[inner last]|] eqn:E; [|reflexivity].
    destruct (Ascii.eqb_spec last double_quote) as [->|_]; [|reflexivity].
    apply unsnoc_Some in E. subst rest. now destruct (Hs inner).
Qed.

Lemma stripQuotes_spec_witness :
  has_line_terminator "faces" = false /\
  stripQuotes (Some (quoted "faces")) = "faces"%string.
Proof.
  split; [vm_compute; reflexivity|].
  apply (proj1 (proj2 stripQuotes_spec)). vm_compute; reflexivity.
Defined.

Lemma requireEnv_returned (env : Env) (key v : string) :
  requireEnv env key = Returned v <->
  stripQuotes (env key) = v /\ v <> ""%string.
Proof.
  unfold requireEnv.
  destruct (stripQuotes (env key)) as [|c s]; cbn [Js.truthy negb].
  - split; [discriminate|]. now intros [<- H].
  - split; [intros [= <-]; split; [reflexivity|discriminate]|].
    now intros [-> _].
Qed.

(** X2. [requireEnv] returns the stripped value exactly when that value is
    not empty.  A variable that is unset, empty, or nothing but a pair of
    double quotes makes it throw, and the only error it throws names the
    variable. *)
Theorem requireEnv_spec (env : Env) (key : string) :
  (forall v, requireEnv env key = Returned v <->
             stripQuotes (env key) = v /\ v <> ""%string) /\
  (env key = None \/ env key = Some ""%string \/ env key = Some (quoted "") ->
   requireEnv env key = Threw (missing_variable key)) /\
  (forall e, requireEnv env key = Threw e ->
             e = missing_variable key /\ stripQuotes (env key) = ""%string).
Proof.
  split; [|split].
  - intros v. apply requireEnv_returned.
  - unfold requireEnv. intros [-> | [-> | ->]]; reflexivity.
  - unfold requireEnv. intros e.
    destruct (stripQuotes (env key)) as [|c s]; cbn [Js.truthy negb].
    + now intros [= <-].
    + discriminate.
Qed.

Lemma requireEnv_spec_witness :
  env_of [("K", quoted "")] "K" = Some (quoted "") /\
  requireEnv (env_of [("K", quoted "")]) "K" = Threw (missing_variable "K").
Proof.
  split; [vm_compute; reflexivity|].
  apply (proj1 (proj2 (requireEnv_spec (env_of [("K", quoted "")]) "K"))).
  right; right. vm_compute; reflexivity.
Defined.

Lemma requireEnv_cases (env : Env) (key : string) :
  (Js.truthy (stripQuotes (env key)) = true /\
   requireEnv env key = Returned (stripQuotes (env key))) \/
  (Js.truthy (stripQuotes (env key)) = false /\
   requireEnv env key = Threw (missing_variable key)).
Proof.
  unfold requireEnv. destruct (Js.truthy (stripQuotes (env key))); auto.
Qed.

(** X3. Loading the module succeeds exactly when none of the four required
    variables is missing; otherwise it throws the error that names the
    first missing one, in the order S3_BUCKET, AWS_ACCESS_KEY_ID,
    AWS_SECRET_ACCESS_KEY, GEMINI_API_KEY. *)
Theorem load_scanService_reports_first_missing (env : Env) :
  match
    find (fun key => negb (Js.truthy (stripQuotes (env key))))
         ["S3_BUCKET"; "AWS_ACCESS_KEY_ID"; "AWS_SECRET_ACCESS_KEY";
          "GEMINI_API_KEY"]%string
  with
  | Some key => load_scanService env = Threw (missing_variable key)
  | None => exists cfg apiKey, load_scanService env = Returned (cfg, apiKey)
  end.
Proof.
  unfold load_scanService. cbn [find].
  destruct (requireEnv_cases env "S3_BUCKET") as [[-> ->]|[-> ->]];
    cbn [negb and_then]; [|reflexivity].
  destruct (requireEnv_cases env "AWS_ACCESS_KEY_ID") as [[-> ->]|[-> ->]];
    cbn [negb and_then]; [|reflexivity].
  destruct (requireEnv_cases env "AWS_SECRET_ACCESS_KEY") as [[-> ->]|[-> ->]];
    cbn [negb and_then]; [|reflexivity].
  destruct (requireEnv_cases env "GEMINI_API_KEY") as [[-> ->]|[-> ->]];
    cbn [negb and_then]; [|reflexivity].
  eexists _, _. reflexivity.
Qed.

Lemma load_scanService_inv (env : Env) (cfg : Config) (apiKey : string) :
  load_scanService env = Returned (cfg, apiKey) ->
  requireEnv env "S3_BUCKET" = Returned (bucket cfg) /\
  requireEnv env "AWS_ACCESS_KEY_ID" = Returned (accessKeyId (credentials cfg)) /\
  requireEnv env "AWS_SECRET_ACCESS_KEY"
    = Returned (secretAccessKey (credentials cfg)) /\
  requireEnv env "GEMINI_API_KEY" = Returned apiKey /\
  folder cfg = optionalEnv env "S3_FOLDER" "person_image" /\
  preferredRegion cfg =
    Js.or_else (optionalEnv env "S3_REGION" "")
      (Js.or_else (optionalEnv env "AWS_REGION" "")
         (Js.or_else (optionalEnv env "AWS_DEFAULT_REGION" "") "")).
Proof.
  unfold load_scanService.
  destruct (requireEnv env "S3_BUCKET") as [b|]; [|discriminate].
  destruct (requireEnv env "AWS_ACCESS_KEY_ID") as [a|]; [|discriminate].
  destruct (requireEnv env "AWS_SECRET_ACCESS_KEY") as [k|]; [|discriminate].
  destruct (requireEnv env "GEMINI_API_KEY") as [m|]; [|discriminate].
  cbn [and_then]. intros [= <- <-]. cbn. auto 10.
Qed.

(** X4. In a configuration that loaded, the bucket, both credentials and
    the model key are the stripped values of their variables and none is
    empty; the folder is never empty either, being the stripped S3_FOLDER
    or, when that is empty, [person_image]. *)
Theorem load_scanService_config_well_formed
        (env : Env) (cfg : Config) (apiKey : string) :
  load_scanService env = Returned (cfg, apiKey) ->
  (bucket cfg = stripQuotes (env "S3_BUCKET"%string) /\ bucket cfg <> ""%string) /\
  (accessKeyId (credentials cfg) = stripQuotes (env "AWS_ACCESS_KEY_ID"%string) /\
   accessKeyId (credentials cfg) <> ""%string) /\
  (secretAccessKey (credentials cfg)
     = stripQuotes (env "AWS_SECRET_ACCESS_KEY"%string) /\
   secretAccessKey (credentials cfg) <> ""%string) /\
  (apiKey = stripQuotes (env "GEMINI_API_KEY"%string) /\ apiKey <> ""%string) /\
  folder cfg <> ""%string /\
  (stripQuotes (env "S3_FOLDER"%string) = ""%string ->
   folder cfg = "person_image"%string) /\
  (stripQuotes (env "S3_FOLDER"%string) <> ""%string ->
   folder cfg = stripQuotes (env "S3_FOLDER"%string)).
Proof.
  intros H. apply load_scanService_inv in H
    as (Hb & Ha & Hs & Hk & Hf & _).
  apply requireEnv_returned in Hb, Ha, Hs, Hk.
  destruct Hb as [Hb Hb'], Ha as [Ha Ha'], Hs as [Hs Hs'], Hk as [Hk Hk'].
  repeat split; auto.
  - rewrite Hf. unfold optionalEnv, Js.or_else.
    destruct (stripQuotes (env "S3_FOLDER"%string)); cbn; discriminate.
  - intros E. rewrite Hf. unfold optionalEnv. now rewrite E.
  - intros E. rewrite Hf. unfold optionalEnv.
    apply or_else_truthy. now apply truthy_true_iff.
Qed.

Lemma load_scanService_config_well_formed_witness :
  load_scanService sample_env
    = Returned ({| bucket := "faces"; folder := "person_image";
                   preferredRegion := "EU";
                   credentials := {| accessKeyId := "AKIA";
                                     secretAccessKey := "secret" |} |},
                "g-key"%string) /\
  "faces"%string = stripQuotes (sample_env "S3_BUCKET"%string) /\
  "person_image"%string <> ""%string.
Proof.
  split; [vm_compute; reflexivity|].
  pose proof (load_scanService_config_well_formed sample_env
                {| bucket := "faces"; folder := "person_image";
                   preferredRegion := "EU";
                   credentials := {| accessKeyId := "AKIA";
                                     secretAccessKey := "secret" |} |}
                "g-key") as H.
  destruct H as ((Hb & _) & _ & _ & _ & Hf & _); [vm_compute; reflexivity|].
  split; [exact Hb|exact Hf].
Defined.

(** X5. The configured region is the first non-empty stripped value among
    S3_REGION, AWS_REGION and AWS_DEFAULT_REGION, in that order, and empty
    when all three are.  When it is not empty, the first [ensureRegion] of
    the process returns it normalised, caches it and looks nothing up. *)
Theorem load_scanService_region_priority
        (env : Env) (cfg : Config) (apiKey : string) :
  load_scanService env = Returned (cfg, apiKey) ->
  preferredRegion cfg =
    hd ""%string
       (filter Js.truthy
          (map (fun key => stripQuotes (env key))
               ["S3_REGION"; "AWS_REGION"; "AWS_DEFAULT_REGION"]%string)) /\
  (preferredRegion cfg <> ""%string ->
   forall host h,
     ensureRegion host cfg initial_globals h =
       (Returned (normalizeRegion (Some (preferredRegion cfg))),
        {| resolvedRegion := Some (normalizeRegion (Some (preferredRegion cfg)));
           s3Client := None |}, [])).
Proof.
  intros H. apply load_scanService_inv in H as (_ & _ & _ & _ & _ & Hp).
  split.
  - rewrite Hp. unfold optionalEnv, Js.or_else. cbn [map filter].
    destruct (stripQuotes (env "S3_REGION"%string)) as [|? ?]; [|reflexivity].
    destruct (stripQuotes (env "AWS_REGION"%string)) as [|? ?]; [|reflexivity].
    destruct (stripQuotes (env "AWS_DEFAULT_REGION"%string)) as [|? ?];
      reflexivity.
  - intros Hne host h. apply truthy_true_iff in Hne.
    destruct (ensureRegion_run host cfg initial_globals h)
      as (r & evs & HR & ->).
    destruct (EnsureRun_configured cfg initial_globals r evs Hne
                (or_introl eq_refl) HR) as [-> ->].
    reflexivity.
Qed.

Lemma load_scanService_region_priority_witness :
  load_scanService sample_env
    = Returned ({| bucket := "faces"; folder := "person_image";
                   preferredRegion := "EU";
                   credentials := {| accessKeyId := "AKIA";
                                     secretAccessKey := "secret" |} |},
                "g-key"%string) /\
  outcome_of
    (ensureRegion quiet_host
       {| bucket := "faces"; folder := "person_image";
          preferredRegion := "EU";
          credentials := {| accessKeyId := "AKIA";
                            secretAccessKey := "secret" |} |}
       initial_globals [])
    = Returned "eu-west-1"%string.
Proof.
  split; [vm_compute; reflexivity|].
  pose proof (load_scanService_region_priority sample_env
                {| bucket := "faces"; folder := "person_image";
                   preferredRegion := "EU";
                   credentials := {| accessKeyId := "AKIA";
                                     secretAccessKey := "secret" |} |}
                "g-key") as H.
  destruct H as (_ & Hrun); [vm_compute; reflexivity|].
  rewrite Hrun; [reflexivity|vm_compute; discriminate].
Defined.

(** ** Folder and object key *)

Lemma startsWith_slash_cons (c : ascii) (s : string) :
  Js.startsWith "/" (String c s) = Ascii.eqb c "/".
Proof. cbn [Js.startsWith]. now rewrite andb_true_r, eqb_sym. Qed.

Lemma strip_leading_slashes_no_lead (s : string) :
  Js.startsWith "/" (strip_leading_slashes s) = false.
Proof.
  induction s as [|c s IH]; [reflexivity|]. cbn [strip_leading_slashes].
  destruct (Ascii.eqb c "/") eqn:Hc; [exact IH|].
  now rewrite startsWith_slash_cons.
Qed.

Lemma strip_leading_slashes_id (s : string) :
  Js.startsWith "/" s = false -> strip_leading_slashes s = s.
Proof.
  destruct s as [|c s]; [reflexivity|]. rewrite startsWith_slash_cons.
  intros H. cbn [strip_leading_slashes]. now rewrite H.
Qed.

Lemma strip_trailing_slashes_keeps_no_lead (s : string) :
  Js.startsWith "/" s = false ->
  Js.startsWith "/" (strip_trailing_slashes s) = false.
Proof.
  destruct s as [|c s]; [reflexivity|]. rewrite startsWith_slash_cons.
  intros H. cbn [strip_trailing_slashes]. rewrite H. cbn [andb].
  now rewrite startsWith_slash_cons.
Qed.

Lemma unsnoc_cons (c : ascii) (s init : string) (last : ascii) :
  unsnoc (String c s) = Some (init, last) ->
  (s = ""%string /\ init = ""%string /\ last = c) \/
  (exists init', unsnoc s = Some (init', last) /\ init = String c init').
Proof.
  cbn [unsnoc]. destruct (unsnoc s) as [[i l]|] eqn:E.
  - intros H. injection H as <- <-. right. now exists i.
  - intros H. injection H as <- <-. left. destruct s as [|d s]; [auto|].
    cbn [unsnoc] in E. destruct (unsnoc s) as [[? ?]|]; discriminate.
Qed.

Lemma strip_trailing_slashes_no_trail (s init : string) :
  unsnoc (strip_trailing_slashes s) <> Some (init, "/"%char).
Proof.
  revert init. induction s as [|c s IH]; intros init H; [discriminate|].
  cbn [strip_trailing_slashes] in H.
  destruct (Ascii.eqb c "/") eqn:Hc; cbn [andb] in H.
  - destruct (strip_trailing_slashes s) as [|d r] eqn:E;
      cbn [Js.truthy negb] in H; [discriminate|].
    apply unsnoc_cons in H as [(Hs & _ & _) | (i' & Hi & _)];
      [discriminate|exact (IH _ Hi)].
  - apply unsnoc_cons in H as [(_ & _ & Hl) | (i' & Hi & _)].
    + rewrite <- Hl, Ascii.eqb_refl in Hc. discriminate.
    + exact (IH _ Hi).
Qed.

Lemma strip_trailing_slashes_id (s : string) :
  (forall init, unsnoc s <> Some (init, "/"%char)) ->
  strip_trailing_slashes s = s.
Proof.
  induction s as [|c s IH]; intros H; [reflexivity|].
  cbn [strip_trailing_slashes].
  assert (Hs : strip_trailing_slashes s = s).
  { apply IH. intros init E. apply (H (String c init)). simpl. now rewrite E. }
  rewrite Hs. destruct s as [|d s'].
  - cbn [Js.truthy negb]. rewrite andb_true_r.
    destruct (Ascii.eqb_spec c "/") as [->|_]; [|reflexivity].
    now destruct (H ""%string).
  - cbn [Js.truthy negb]. now rewrite andb_false_r.
Qed.

(** X6. [sanitizeFolder] returns a string that neither starts nor ends
    with a slash, whatever it is given; it leaves a string that has no such
    slash unchanged, so applying it twice changes nothing more. *)
Theorem sanitizeFolder_spec (input : string) :
  Js.startsWith "/" (sanitizeFolder input) = false /\
  (forall init, unsnoc (sanitizeFolder input) <> Some (init, "/"%char)) /\
  (Js.startsWith "/" input = false ->
   (forall init, unsnoc input <> Some (init, "/"%char)) ->
   sanitizeFolder input = input) /\
  sanitizeFolder (sanitizeFolder input) = sanitizeFolder input.
Proof.
  assert (H1 : Js.startsWith "/" (sanitizeFolder input) = false).
  { apply strip_trailing_slashes_keeps_no_lead,
      strip_leading_slashes_no_lead. }
  assert (H2 : forall init,
             unsnoc (sanitizeFolder input) <> Some (init, "/"%char)).
  { intros init. apply strip_trailing_slashes_no_trail. }
  assert (H3 : forall s, Js.startsWith "/" s = false ->
                         (forall init, unsnoc s <> Some (init, "/"%char)) ->
                         sanitizeFolder s = s).
  { intros s Ha Hb. unfold sanitizeFolder.
    rewrite (strip_leading_slashes_id s Ha).
    now apply strip_trailing_slashes_id. }
  repeat split; auto.
Qed.

Lemma sanitizeFolder_spec_witness :
  Js.startsWith "/" "person_image" = false /\
  sanitizeFolder "person_image" = "person_image"%string.
Proof.
  split; [vm_compute; reflexivity|].
  apply (proj1 (proj2 (proj2 (sanitizeFolder_spec "person_image")))).
  - vm_compute; reflexivity.
  - intros init. vm_compute. discriminate.
Defined.

Lemma dash_colons_and_dots_spec (iso : string) :
  String.length (Js.dash_colons_and_dots iso) = String.length iso /\
  all_chars (fun c => negb (Ascii.eqb c ":" || Ascii.eqb c "."))
            (Js.dash_colons_and_dots iso) = true.
Proof.
  unfold Js.dash_colons_and_dots.
  induction iso as [|c iso [IH1 IH2]]; [split; reflexivity|].
  cbn [Js.map_chars String.length all_chars]. rewrite IH1, IH2.
  split; [reflexivity|]. rewrite andb_true_r.
  destruct (Ascii.eqb c ":" || Ascii.eqb c ".") eqn:E; [reflexivity|].
  now rewrite E.
Qed.

Lemma generateObjectKey_run (host : Host) (cfg : Config) g h :
  generateObjectKey host cfg g h =
    (Returned
       (key_of cfg (random_id host h)
          (now_toISOString host (h ++ [EvRandomId (random_id host h)]))),
     g,
     [EvRandomId (random_id host h);
      EvNow (now_toISOString host (h ++ [EvRandomId (random_id host h)]))]).
Proof. reflexivity. Qed.

Lemma get_map_chars (f : ascii -> ascii) (s : string) (n : nat) :
  String.get n (Js.map_chars f s) = option_map f (String.get n s).
Proof.
  revert n. induction s as [|c s IH]; intros n; [reflexivity|].
  destruct n as [|n]; [reflexivity|]. cbn [Js.map_chars String.get]. apply IH.
Qed.

(** X7. [generateObjectKey] never throws and leaves the globals alone; it
    draws the identifier, then reads the clock, and returns
    prefix + timestamp + "-" + identifier + ".jpg".  The timestamp is the
    clock reading with every colon and dot turned into a dash and every
    other character kept in its place, so it is as long as the reading and
    has neither colon nor dot; the prefix is empty or the sanitized folder
    followed by one slash, and never starts with a slash. *)
Theorem generateObjectKey_shape (host : Host) (cfg : Config) g h :
  exists id iso prefix ts,
    generateObjectKey host cfg g h =
      (Returned (prefix ++ ts ++ "-" ++ id ++ ".jpg")%string, g,
       [EvRandomId id; EvNow iso]) /\
    id = random_id host h /\
    iso = now_toISOString host (h ++ [EvRandomId id]) /\
    (forall n,
       String.get n ts =
         option_map
           (fun c => if Ascii.eqb c ":" || Ascii.eqb c "." then "-"%char else c)
           (String.get n iso)) /\
    String.length ts = String.length iso /\
    all_chars (fun c => negb (Ascii.eqb c ":" || Ascii.eqb c ".")) ts = true /\
    ((sanitizeFolder (folder cfg) = ""%string /\ prefix = ""%string) \/
     (sanitizeFolder (folder cfg) <> ""%string /\
      prefix = (sanitizeFolder (folder cfg) ++ "/")%string)) /\
    Js.startsWith "/" prefix = false.
Proof.
  rewrite generateObjectKey_run. unfold key_of.
  destruct (dash_colons_and_dots_spec
              (now_toISOString host (h ++ [EvRandomId (random_id host h)])))
    as [Hlen Hall].
  eexists _, _, _, _. split; [reflexivity|].
  split; [reflexivity|]. split; [reflexivity|].
  split; [intros n; apply get_map_chars|].
  split; [exact Hlen|]. split; [exact Hall|].
  pose proof (strip_trailing_slashes_keeps_no_lead _
                (strip_leading_slashes_no_lead (folder cfg))) as Hlead.
  fold (sanitizeFolder (folder cfg)) in Hlead.
  destruct (sanitizeFolder (folder cfg)) as [|c s] eqn:E; cbn [Js.truthy].
  - split; [left; auto|reflexivity].
  - split; [right; split; [discriminate|reflexivity]|]. exact Hlead.
Qed.

Lemma key_of_injective (cfg : Config) (id1 iso1 id2 iso2 : string) :
  key_of cfg id1 iso1 = key_of cfg id2 iso2 ->
  String.length id1 = String.length id2 ->
  id1 = id2.
Proof.
  unfold key_of. intros H Hlen. apply append_cancel_l in H.
  apply append_same_suffix_length in H as [_ H].
  - injection H as H.
    now apply append_same_suffix_length in H as [H _].
  - cbn [String.append String.length]. rewrite !length_append. simpl. lia.
Qed.

(** X8. Two calls of [generateObjectKey] that drew different identifiers
    of the same length (two UUIDs, say) return different keys, whatever
    the clock read. *)
Theorem generateObjectKey_distinct_ids_distinct_keys
        (host : Host) (cfg : Config) g1 h1 g2 h2 k1 k2 :
  outcome_of (generateObjectKey host cfg g1 h1) = Returned k1 ->
  outcome_of (generateObjectKey host cfg g2 h2) = Returned k2 ->
  random_id host h1 <> random_id host h2 ->
  String.length (random_id host h1) = String.length (random_id host h2) ->
  k1 <> k2.
Proof.
  rewrite !generateObjectKey_run. unfold outcome_of; cbn [fst].
  intros [= <-] [= <-] Hne Hlen Heq. apply Hne.
  exact (key_of_injective cfg _ _ _ _ Heq Hlen).
Qed.

Lemma generateObjectKey_distinct_ids_distinct_keys_witness :
  random_id quiet_host [] <> random_id quiet_host [EvRandomId "3f2c"] /\
  ("person_image/2024-05-01T10-20-30-456Z-3f2c.jpg"%string
   <> "person_image/2024-05-01T10-20-30-456Z-9a7e.jpg"%string).
Proof.
  split; [vm_compute; discriminate|].
  apply (generateObjectKey_distinct_ids_distinct_keys quiet_host
           discovering_cfg initial_globals [] initial_globals
           [EvRandomId "3f2c"]).
  - vm_compute; reflexivity.
  - vm_compute; reflexivity.
  - vm_compute; discriminate.
  - vm_compute; reflexivity.
Defined.

(** ** Data URLs *)

Lemma skip_word_chars_app (w rest : string) :
  all_chars Js.is_word_char w = true ->
  Js.startsWith ";" rest = true ->
  Js.skip_word_chars (w ++ rest) = rest.
Proof.
  intros Hw Hrest. induction w as [|c w IH].
  - apply startsWith_split in Hrest as [tail ->]. reflexivity.
  - cbn [all_chars] in Hw. apply andb_prop in Hw as [Hc Hw].
    cbn [String.append Js.skip_word_chars]. rewrite Hc. now apply IH.
Qed.

(** X9. [base64ToBuffer] decodes what follows the header of a data URL
    for an image of any subtype made of letters, digits and underscores;
    a string that does not start with "data:image/" is decoded as it
    is. *)
Theorem base64ToBuffer_strips_any_image_header
        (host : Host) (w payload s : string) :
  (all_chars Js.is_word_char w = true -> w <> ""%string ->
   strip_data_url ("data:image/" ++ w ++ ";base64," ++ payload) = payload /\
   base64ToBuffer host ("data:image/" ++ w ++ ";base64," ++ payload)
     = Buffer_from_base64 host payload) /\
  (Js.startsWith "data:image/" s = false ->
   strip_data_url s = s /\
   base64ToBuffer host s = Buffer_from_base64 host s).
Proof.
  split.
  - intros Hw Hne.
    assert (E : strip_data_url ("data:image/" ++ w ++ ";base64," ++ payload)
                = payload).
    { unfold strip_data_url.
      rewrite startsWith_app.
      change 11 with (String.length "data:image/"). rewrite drop_app.
      rewrite (skip_word_chars_app w (";base64," ++ payload) Hw eq_refl).
      rewrite startsWith_app.
      change 8 with (String.length ";base64,"). rewrite drop_app.
      destruct w as [|c w]; [contradiction|].
      cbn [all_chars] in Hw. apply andb_prop in Hw as [Hc _].
      cbn [String.append]. now rewrite Hc. }
    split; [exact E|]. unfold base64ToBuffer. now rewrite E.
  - intros Hs. unfold base64ToBuffer, strip_data_url. now rewrite Hs.
Qed.

Lemma base64ToBuffer_strips_any_image_header_witness :
  all_chars Js.is_word_char "gif" = true /\
  strip_data_url "data:image/gif;base64,QUJD" = "QUJD"%string.
Proof.
  split; [vm_compute; reflexivity|].
  apply (proj1 (base64ToBuffer_strips_any_image_header quiet_host
                  "gif" "QUJD" "")).
  - vm_compute; reflexivity.
  - discriminate.
Defined.

Lemma header_subtype (k w payload : string) :
  all_chars Js.is_word_char k = true ->
  all_chars Js.is_word_char w = true ->
  Js.startsWith (k ++ ";base64,") (w ++ ";base64," ++ payload) = true ->
  w = k.
Proof.
  intros Hk. revert w. induction k as [|x k IH]; intros [|c w] Hw H.
  - reflexivity.
  - cbn [all_chars] in Hw. apply andb_prop in Hw as [Hc _].
    cbn [String.append Js.startsWith] in H.
    apply andb_prop in H as [H _]. apply Ascii.eqb_eq in H. subst c.
    discriminate Hc.
  - cbn [all_chars] in Hk. apply andb_prop in Hk as [Hx _].
    cbn [String.append Js.startsWith] in H.
    apply andb_prop in H as [H _]. apply Ascii.eqb_eq in H. subst x.
    discriminate Hx.
  - cbn [all_chars] in Hk, Hw.
    apply andb_prop in Hk as [_ Hk]. apply andb_prop in Hw as [_ Hw].
    cbn [String.append Js.startsWith] in H.
    apply andb_prop in H as [Hc H]. apply Ascii.eqb_eq in Hc. subst c.
    now rewrite (IH Hk w Hw H).
Qed.

Lemma strip_known_data_url_kind (k payload : string) :
  In k ["png"; "jpeg"; "webp"]%string ->
  strip_known_data_url ("data:image/" ++ k ++ ";base64," ++ payload) = payload.
Proof.
  intros [<- | [<- | [<- | []]]]; unfold strip_known_data_url; cbn;
    reflexivity.
Qed.

Lemma strip_known_data_url_other (w payload : string) :
  all_chars Js.is_word_char w = true ->
  ~ In w ["png"; "jpeg"; "webp"]%string ->
  strip_known_data_url ("data:image/" ++ w ++ ";base64," ++ payload)
    = ("data:image/" ++ w ++ ";base64," ++ payload)%string.
Proof.
  intros Hw Hnot. unfold strip_known_data_url.
  assert (Hk : forall k,
             In k ["png"; "jpeg"; "webp"]%string ->
             Js.startsWith ("data:image/" ++ k ++ ";base64,")
               ("data:image/" ++ w ++ ";base64," ++ payload) = false).
  { intros k Hin.
    destruct (Js.startsWith ("data:image/" ++ k ++ ";base64,")
                ("data:image/" ++ w ++ ";base64," ++ payload)) eqn:E;
      [|reflexivity].
    exfalso. apply Hnot.
    assert (Hkw : all_chars Js.is_word_char k = true).
    { destruct Hin as [<- | [<- | [<- | []]]]; reflexivity. }
    assert (E' : Js.startsWith (k ++ ";base64,")
                   (w ++ ";base64," ++ payload) = true).
    { cbn [String.append Js.startsWith] in E.
      rewrite !Ascii.eqb_refl in E. exact E. }
    now rewrite (header_subtype k w payload Hkw Hw E'). }
  change "data:image/png;base64,"%string
    with ("data:image/" ++ "png" ++ ";base64,")%string.
  change "data:image/jpeg;base64,"%string
    with ("data:image/" ++ "jpeg" ++ ";base64,")%string.
  change "data:image/webp;base64,"%string
    with ("data:image/" ++ "webp" ++ ";base64,")%string.
  rewrite (Hk "png"%string), (Hk "jpeg"%string), (Hk "webp"%string);
    cbn [In]; auto.
Qed.

(** X10. For a data URL of subtype png, jpeg or webp the model is sent the
    payload alone and the bucket receives the decoded payload.  For any
    other subtype made of letters, digits and underscores the writer still
    decodes the payload alone, but the model is sent the whole data URL,
    header included. *)
Theorem image_header_for_model_and_writer
        (host : Host) (w payload : string) g h :
  all_chars Js.is_word_char w = true ->
  w <> ""%string ->
  base64ToBuffer host ("data:image/" ++ w ++ ";base64," ++ payload)
    = Buffer_from_base64 host payload /\
  (In w ["png"; "jpeg"; "webp"]%string ->
   exists o a,
     analyzeImage host ("data:image/" ++ w ++ ";base64," ++ payload) g h
       = (o, g, [EvGenerateContent payload a])) /\
  (~ In w ["png"; "jpeg"; "webp"]%string ->
   exists o a,
     analyzeImage host ("data:image/" ++ w ++ ";base64," ++ payload) g h
       = (o, g,
          [EvGenerateContent
             ("data:image/" ++ w ++ ";base64," ++ payload) a])).
Proof.
  intros Hw Hne. split; [|split].
  - unfold base64ToBuffer, strip_data_url.
    rewrite startsWith_app.
    change 11 with (String.length "data:image/"). rewrite drop_app.
    rewrite (skip_word_chars_app w (";base64," ++ payload) Hw eq_refl).
    rewrite startsWith_app.
    change 8 with (String.length ";base64,"). rewrite drop_app.
    destruct w as [|c w]; [contradiction|].
    cbn [all_chars] in Hw. apply andb_prop in Hw as [Hc _].
    cbn [String.append]. now rewrite Hc.
  - intros Hin.
    destruct (analyzeImage_run host
                ("data:image/" ++ w ++ ";base64," ++ payload) g h)
      as (o & a & Hrun & _).
    rewrite (strip_known_data_url_kind w payload Hin) in Hrun. eauto.
  - intros Hnot.
    destruct (analyzeImage_run host
                ("data:image/" ++ w ++ ";base64," ++ payload) g h)
      as (o & a & Hrun & _).
    rewrite (strip_known_data_url_other w payload Hw Hnot) in Hrun. eauto.
Qed.

Lemma image_header_for_model_and_writer_witness :
  all_chars Js.is_word_char "gif" = true /\
  ~ In "gif"%string ["png"; "jpeg"; "webp"]%string /\
  exists o a,
    analyzeImage quiet_host "data:image/gif;base64,QUJD" initial_globals []
      = (o, initial_globals,
         [EvGenerateContent "data:image/gif;base64,QUJD" a]).
Proof.
  split; [vm_compute; reflexivity|].
  assert (Hnot : ~ In "gif"%string ["png"; "jpeg"; "webp"]%string).
  { intros [H | [H | [H | []]]]; discriminate H. }
  split; [exact Hnot|].
  apply (proj2 (proj2 (image_header_for_model_and_writer quiet_host
                         "gif" "QUJD" initial_globals []
                         eq_refl ltac:(discriminate)))).
  exact Hnot.
Defined.

(** ** Code fences in the model's reply *)

Lemma remove_matches_skip (m : string -> option nat) (p rest : string) :
  Js.remove_matches m (String.length p) (p ++ rest)
    = Js.remove_matches m 0 rest.
Proof.
  induction p as [|c p IH]; [reflexivity|].
  cbn [String.length String.append Js.remove_matches]. exact IH.
Qed.

Lemma remove_matches_hit (m : string -> option nat) (c : ascii)
      (s : string) (k : nat) :
  m (String c s) = Some (S k) ->
  Js.remove_matches m 0 (String c s) = Js.remove_matches m k s.
Proof. intros H. cbn [Js.remove_matches]. now rewrite H. Qed.

Lemma remove_matches_miss (m : string -> option nat) (c : ascii)
      (s : string) :
  m (String c s) = None ->
  Js.remove_matches m 0 (String c s) = String c (Js.remove_matches m 0 s).
Proof. intros H. cbn [Js.remove_matches]. now rewrite H. Qed.

Lemma startsWith_fence_false (s : string) :
  Js.startsWith (String backtick "") s = false ->
  Js.startsWith fence s = false.
Proof.
  destruct s as [|c s]; [reflexivity|].
  unfold fence. cbn [Js.startsWith]. rewrite andb_true_r.
  fold backtick. now intros ->.
Qed.

Lemma body_then_newline_no_backtick (body tail : string) :
  all_chars no_backtick_char body = true ->
  Js.startsWith (String backtick "") (body ++ String Js.newline tail) = false.
Proof.
  destruct body as [|d body]; [reflexivity|].
  cbn [all_chars String.append Js.startsWith]. intros H.
  apply andb_prop in H as [H _]. unfold no_backtick_char in H.
  rewrite eqb_sym. now destruct (Ascii.eqb d backtick).
Qed.

Lemma fence_miss (m : string -> option nat) (c : ascii) (rest : string) :
  (m = match_json_fence \/ m = match_plain_fence) ->
  no_backtick_char c = true ->
  Js.startsWith (String backtick "") rest = false ->
  m (String c rest) = None.
Proof.
  intros Hm Hc Hrest. unfold no_backtick_char in Hc.
  assert (Hb : Ascii.eqb backtick c = false).
  { rewrite eqb_sym. now destruct (Ascii.eqb c backtick). }
  assert (H1 : Js.startsWith fence (String c rest) = false).
  { unfold fence. cbn [Js.startsWith]. fold backtick. now rewrite Hb. }
  assert (H2 : Js.startsWith (fence ++ "json") (String c rest) = false).
  { unfold fence. cbn [String.append Js.startsWith]. fold backtick.
    now rewrite Hb. }
  assert (H3 : Js.startsWith (nl ++ fence) (String c rest) = false).
  { unfold nl. cbn [String.append Js.startsWith].
    now rewrite (startsWith_fence_false rest Hrest), andb_false_r. }
  destruct Hm as [-> | ->]; unfold match_json_fence, match_plain_fence;
    now rewrite ?H1, ?H2, ?H3.
Qed.

Lemma remove_fences_body (m : string -> option nat) (body : string) :
  (m = match_json_fence \/ m = match_plain_fence) ->
  all_chars no_backtick_char body = true ->
  Js.remove_matches m 0 (body ++ nl ++ fence) = body.
Proof.
  intros Hm. induction body as [|c body IH]; intros Hb.
  - destruct Hm as [-> | ->]; reflexivity.
  - pose proof Hb as Hb'. cbn [all_chars] in Hb'.
    apply andb_prop in Hb' as [Hc Hbody].
    cbn [String.append]. rewrite remove_matches_miss.
    + now rewrite (IH Hbody).
    + apply (fence_miss m c _ Hm Hc).
      apply (body_then_newline_no_backtick body fence Hbody).
Qed.

Lemma includes_past_body (needle body tail : string) :
  Js.startsWith (String backtick "") needle = true ->
  all_chars no_backtick_char body = true ->
  Js.includes needle (body ++ tail) = Js.includes needle tail.
Proof.
  intros Hn. induction body as [|c body IH]; intros Hb; [reflexivity|].
  cbn [all_chars] in Hb. apply andb_prop in Hb as [Hc Hb].
  cbn [String.append]. rewrite includes_unfold. rewrite (IH Hb).
  apply startsWith_split in Hn as [n' ->].
  cbn [String.append Js.startsWith]. unfold no_backtick_char in Hc.
  rewrite eqb_sym. now destruct (Ascii.eqb c backtick).
Qed.

Lemma strip_code_fences_json_block (body : string) :
  all_chars no_backtick_char body = true ->
  strip_code_fences (fence ++ "json" ++ nl ++ body ++ nl ++ fence) = body.
Proof.
  intros Hb. unfold strip_code_fences.
  change (fence ++ "json" ++ nl ++ body ++ nl ++ fence)%string
    with ((fence ++ "json") ++ nl ++ body ++ nl ++ fence)%string.
  rewrite includes_unfold, startsWith_app. cbn [orb].
  change ((fence ++ "json") ++ nl ++ body ++ nl ++ fence)%string
    with (String backtick ("``json" ++ nl ++ body ++ nl ++ fence))%string.
  rewrite (remove_matches_hit match_json_fence backtick
             ("``json" ++ nl ++ body ++ nl ++ fence) 7 eq_refl).
  change ("``json" ++ nl ++ body ++ nl ++ fence)%string
    with (("``json" ++ nl) ++ body ++ nl ++ fence)%string.
  change 7 with (String.length ("``json" ++ nl)).
  rewrite remove_matches_skip. apply remove_fences_body; auto.
Qed.

Lemma strip_code_fences_no_backtick (text : string) :
  all_chars no_backtick_char text = true ->
  strip_code_fences text = text.
Proof.
  intros Hb. unfold strip_code_fences.
  assert (H1 : Js.includes (fence ++ "json") text = false).
  { rewrite <- (append_nil_r text).
    now rewrite (includes_past_body (fence ++ "json") text "" eq_refl Hb). }
  assert (H2 : Js.includes fence text = false).
  { rewrite <- (append_nil_r text).
    now rewrite (includes_past_body fence text "" eq_refl Hb). }
  now rewrite H1, H2.
Qed.

(** X11. A reply wrapped in a json code fence, or in a plain one, each on
    its own line, is reduced to what is between the fences, provided that
    has no backtick; a reply without any backtick is left as it is. *)
Theorem strip_code_fences_unwraps (body : string) :
  all_chars no_backtick_char body = true ->
  strip_code_fences (fence ++ "json" ++ nl ++ body ++ nl ++ fence) = body /\
  strip_code_fences (fence ++ nl ++ body ++ nl ++ fence) = body /\
  strip_code_fences body = body.
Proof.
  intros Hb. split; [now apply strip_code_fences_json_block|].
  split; [|now apply strip_code_fences_no_backtick].
  unfold strip_code_fences.
  assert (Hj : Js.includes (fence ++ "json")
                 (fence ++ nl ++ body ++ nl ++ fence) = false).
  { change (fence ++ nl ++ body ++ nl ++ fence)%string
      with (String backtick (String backtick (String backtick
              (String Js.newline (body ++ nl ++ fence))))).
    rewrite 4 includes_unfold.
    rewrite (includes_past_body (fence ++ "json") body (nl ++ fence)
               eq_refl Hb).
    reflexivity. }
  rewrite Hj.
  change (fence ++ nl ++ body ++ nl ++ fence)%string
    with (fence ++ (nl ++ body ++ nl ++ fence))%string at 1.
  rewrite includes_unfold, startsWith_app. cbn [orb].
  change (fence ++ nl ++ body ++ nl ++ fence)%string
    with (String backtick (("``" ++ nl) ++ body ++ nl ++ fence))%string.
  rewrite (remove_matches_hit match_plain_fence backtick
             (("``" ++ nl) ++ body ++ nl ++ fence) 3 eq_refl).
  change 3 with (String.length ("``" ++ nl)).
  rewrite remove_matches_skip. apply remove_fences_body; auto.
Qed.

Lemma strip_code_fences_unwraps_witness :
  all_chars no_backtick_char "{}" = true /\
  strip_code_fences (fence ++ "json" ++ nl ++ "{}" ++ nl ++ fence)
    = "{}"%string.
Proof.
  split; [vm_compute; reflexivity|].
  apply (proj1 (strip_code_fences_unwraps "{}" eq_refl)).
Defined.

(** ** The URL of the stored object *)

(** X18. When [handleScan] returns from a state where client and cache
    are paired, the record id is the key of the last put of the request,
    that put succeeded, and the URL is built from the configured bucket,
    the region of the client that made that put, and that key; the host
    is s3.amazonaws.com for us-east-1 and s3.REGION.amazonaws.com
    otherwise. *)
Theorem handleScan_url_points_at_stored_object
        (host : Host) (cfg : Config) image g h res :
  client_paired g ->
  outcome_of (handleScan host cfg image g h) = Returned res ->
  exists before c cmd,
    put_attempts (events_of (handleScan host cfg image g h))
      = before ++ [(c, cmd, Returned tt)] /\
    recordId res = Key cmd /\
    Bucket cmd = bucket cfg /\
    s3Url res = public_url (bucket cfg) (client_region c) (Key cmd) /\
    (client_region c = "us-east-1"%string ->
     s3Url res
       = ("https://" ++ bucket cfg ++ ".s3.amazonaws.com/" ++ Key cmd)%string) /\
    (client_region c <> "us-east-1"%string ->
     s3Url res
       = ("https://" ++ bucket cfg ++ ".s3." ++ client_region c
            ++ ".amazonaws.com/" ++ Key cmd)%string).
Proof.
  intros Hg Hres.
  destruct (handleScan_returned host cfg image g h res Hres)
    as (an & a & out & _ & Hout & -> & ->).
  destruct (persistScanResult_returned host cfg image g _ out Hout)
    as (before & c & Hputs & Hregion).
  exists before, c, (put_of host cfg (objectKey out) image).
  cbn [put_attempts recordId s3Url]. rewrite (Hregion Hg).
  split; [exact Hputs|]. split; [reflexivity|]. split; [reflexivity|].
  split; [reflexivity|]. unfold public_url, put_of; cbn [Key]. split.
  - intros ->. cbn. reflexivity.
  - intros Hne. apply String.eqb_neq in Hne. rewrite Hne.
    cbn [String.append]. now rewrite !append_assoc.
Qed.


(** ** The model's reply *)

Lemma analyzeImage_text (host : Host) image g h reply :
  ai_generateContent host h (strip_known_data_url image) = Returned reply ->
  analyzeImage host image g h =
    ((if negb (Js.truthy
                 (strip_code_fences
                    match reply with Some t => t | None => ""%string end))
      then Threw empty_scan_error
      else JSON_parse host
             (strip_code_fences
                match reply with Some t => t | None => ""%string end)),
     g, [EvGenerateContent (strip_known_data_url image) (Returned reply)]).
Proof.
  intros H. unfold analyzeImage, bind, generateContent, throw. rewrite H.
  assert (E : match reply with
              | Some t => Js.or_else t ""
              | None => ""%string
              end = match reply with Some t => t | None => ""%string end).
  { destruct reply as [[|c t]|]; reflexivity. }
  rewrite E.
  destruct (negb (Js.truthy (strip_code_fences _))); reflexivity.
Qed.

(** X12. What [analyzeImage] makes of the model's answer: a reply with no
    text, or an empty one, throws the fixed error of the empty scan; a
    reply without backticks is handed to [JSON.parse] as it is; a reply in
    a json code fence is handed to [JSON.parse] without the fence.  In each
    case the one event is the model call and the globals are untouched. *)
Theorem analyzeImage_reply (host : Host) image g h reply :
  ai_generateContent host h (strip_known_data_url image) = Returned reply ->
  (reply = None \/ reply = Some ""%string ->
   analyzeImage host image g h =
     (Threw empty_scan_error, g,
      [EvGenerateContent (strip_known_data_url image) (Returned reply)])) /\
  (forall text,
     reply = Some text -> text <> ""%string ->
     all_chars no_backtick_char text = true ->
     analyzeImage host image g h =
       (JSON_parse host text, g,
        [EvGenerateContent (strip_known_data_url image) (Returned reply)])) /\
  (forall body,
     reply = Some (fence ++ "json" ++ nl ++ body ++ nl ++ fence)%string ->
     body <> ""%string ->
     all_chars no_backtick_char body = true ->
     analyzeImage host image g h =
       (JSON_parse host body, g,
        [EvGenerateContent (strip_known_data_url image) (Returned reply)])).
Proof.
  intros H. rewrite (analyzeImage_text host image g h reply H).
  split; [|split].
  - intros [-> | ->]; reflexivity.
  - intros text -> Hne Hb.
    rewrite (strip_code_fences_no_backtick text Hb).
    apply truthy_true_iff in Hne. now rewrite Hne.
  - intros body -> Hne Hb.
    rewrite (strip_code_fences_json_block body Hb).
    apply truthy_true_iff in Hne. now rewrite Hne.
Qed.

Lemma analyzeImage_reply_witness :
  ai_generateContent quiet_host [] (strip_known_data_url sample_image)
    = Returned (Some "{}"%string) /\
  analyzeImage quiet_host sample_image initial_globals [] =
    (JSON_parse quiet_host "{}", initial_globals,
     [EvGenerateContent (strip_known_data_url sample_image)
        (Returned (Some "{}"%string))]).
Proof.
  split; [vm_compute; reflexivity|].
  apply (proj1 (proj2 (analyzeImage_reply quiet_host sample_image
                         initial_globals [] (Some "{}"%string) eq_refl))
           "{}"%string eq_refl).
  - discriminate.
  - vm_compute; reflexivity.
Defined.

(** X21. When the image is accepted and the model answers without text,
    the serverless handler answers 500 with the message of the empty scan;
    the model call is the only event, so nothing was put in the bucket,
    and the globals are what they were. *)
Theorem handler_empty_model_reply
        (host : Host) (cfg : Config) (req : Request) image g h reply :
  method req = "POST"%string ->
  valid_image (image_of (body req)) = Some image ->
  ai_generateContent host h (strip_known_data_url image) = Returned reply ->
  reply = None \/ reply = Some ""%string ->
  handler host cfg req g h =
    (Returned {| status := 500; headers := [];
                 payload :=
                   DetailBody "Không nhận được dữ liệu từ máy quét." |},
     g, [EvGenerateContent (strip_known_data_url image) (Returned reply)]).
Proof.
  intros Hm Hv Hai Hreply.
  assert (Ha : analyzeImage host image g h =
                 (Threw empty_scan_error, g,
                  [EvGenerateContent (strip_known_data_url image)
                     (Returned reply)])).
  { rewrite (analyzeImage_text host image g h reply Hai).
    destruct Hreply as [-> | ->]; reflexivity. }
  assert (Hs : handleScan host cfg image g h =
                 (Threw empty_scan_error, g,
                  [EvGenerateContent (strip_known_data_url image)
                     (Returned reply)])).
  { unfold handleScan. unfold bind at 1. now rewrite Ha. }
  unfold handler. rewrite Hm, String.eqb_refl. cbn [negb].
  rewrite Hv, scan_and_respond_run, Hs. reflexivity.
Qed.

Lemma handler_empty_model_reply_witness :
  valid_image (image_of (body post_with_image)) = Some sample_image /\
  handler (scripted_host [] [] [Returned None]) discovering_cfg
          post_with_image initial_globals []
  = (Returned {| status := 500; headers := [];
                 payload :=
                   DetailBody "Không nhận được dữ liệu từ máy quét." |},
     initial_globals,
     [EvGenerateContent (strip_known_data_url sample_image) (Returned None)]).
Proof.
  split; [vm_compute; reflexivity|].
  apply (handler_empty_model_reply (scripted_host [] [] [Returned None])
           discovering_cfg post_with_image sample_image initial_globals []
           None).
  - reflexivity.
  - vm_compute; reflexivity.
  - vm_compute; reflexivity.
  - left; reflexivity.
Defined.

(** ** The region-mismatch signature *)

(** X13. An error carries the region-mismatch signature exactly when its
    message contains "endpoint", or its name is PermanentRedirect, or its
    HTTP status is 301; a thrown value with none of the three fields never
    does. *)
Theorem is_region_mismatch_iff (e : Thrown) :
  (is_region_mismatch e = true <->
   (exists pre post,
      err_message e = Some (pre ++ "endpoint" ++ post)%string) \/
   err_name e = Some "PermanentRedirect"%string \/
   err_httpStatusCode e = Some 301%Z) /\
  is_region_mismatch (OtherThrown None None None) = false.
Proof.
  split; [|reflexivity]. unfold is_region_mismatch. split.
  - intros H. apply orb_prop in H as [H|H]; [apply orb_prop in H as [H|H]|].
    + left. destruct (err_message e) as [m|]; [|discriminate].
      apply includes_split in H as (pre & post & ->). eauto.
    + right; left. destruct (err_name e) as [n|]; [|discriminate].
      apply String.eqb_eq in H. now subst.
    + right; right. destruct (err_httpStatusCode e) as [c|]; [|discriminate].
      apply Z.eqb_eq in H. now subst.
  - intros [(pre & post & ->) | [-> | ->]].
    + assert (Js.includes "endpoint" (pre ++ "endpoint" ++ post) = true)
        as -> by (apply includes_split; eauto).
      reflexivity.
    + rewrite String.eqb_refl. now rewrite orb_true_r.
    + rewrite Z.eqb_refl. now rewrite orb_true_r.
Qed.

Lemma is_region_mismatch_iff_witness :
  err_httpStatusCode (OtherThrown None None (Some 301%Z)) = Some 301%Z /\
  is_region_mismatch (OtherThrown None None (Some 301%Z)) = true.
Proof.
  split; [reflexivity|].
  apply (proj2 (proj1 (is_region_mismatch_iff
                         (OtherThrown None None (Some 301%Z))))).
  right; right. reflexivity.
Defined.

(** ** The express route *)

(** X22. The express route never throws: it answers 400 when the image is
    not a non-empty string, doing nothing else; otherwise it answers 200
    with the result of [handleScan] when that returned and 500 with the
    detail of the error when it threw.  For a thrown value that is not an
    [Error] the detail is the fixed fallback message. *)
Theorem api_scan_route_always_responds
        (host : Host) (cfg : Config) (req_body : JsValue) g h :
  exists resp,
    outcome_of (api_scan_route host cfg req_body g h) = Returned resp /\
    In (status resp) [200; 400; 500] /\
    (status resp = 400 <-> valid_image (image_of req_body) = None) /\
    (status resp = 400 ->
     api_scan_route host cfg req_body g h = (Returned missing_image, g, [])) /\
    (forall image,
       valid_image (image_of req_body) = Some image ->
       (forall result,
          outcome_of (handleScan host cfg image g h) = Returned result ->
          resp = {| status := 200; headers := [];
                    payload := ResultBody result |}) /\
       (forall name message code,
          outcome_of (handleScan host cfg image g h)
            = Threw (ErrorObject name message code) ->
          resp = {| status := 500; headers := [];
                    payload := DetailBody message |}) /\
       (forall name message code,
          outcome_of (handleScan host cfg image g h)
            = Threw (OtherThrown name message code) ->
          resp = {| status := 500; headers := [];
                    payload := DetailBody "Không thể xử lý yêu cầu." |})).
Proof.
  unfold api_scan_route.
  destruct (valid_image (image_of req_body)) as [image|] eqn:Hv.
  - rewrite scan_and_respond_run. unfold outcome_of at 1; cbn [fst].
    eexists. split; [reflexivity|].
    destruct (outcome_of (handleScan host cfg image g h)) as [result|e] eqn:E;
      cbn [status].
    + split; [cbn; auto|]. split; [split; discriminate|].
      split; [discriminate|]. intros i [= <-]. rewrite E.
      split; [now intros r [= <-]|]. split; intros; discriminate.
    + split; [cbn; auto|]. split; [split; discriminate|].
      split; [discriminate|]. intros i [= <-]. rewrite E.
      split; [intros; discriminate|].
      split; intros n m c [= ->]; reflexivity.
  - exists missing_image. unfold outcome_of, ret; cbn [fst status missing_image].
    split; [reflexivity|]. split; [cbn; auto|]. split; [split; auto|].
    split; [reflexivity|]. intros i H; discriminate.
Qed.

Lemma api_scan_route_always_responds_witness :
  valid_image (image_of (body post_with_image)) = Some sample_image /\
  outcome_of (handleScan model_down_host discovering_cfg sample_image
                initial_globals []) = Threw network_down /\
  outcome_of (api_scan_route model_down_host discovering_cfg
                (body post_with_image) initial_globals [])
    = Returned {| status := 500; headers := [];
                  payload := DetailBody "socket hang up" |}.
Proof.
  split; [vm_compute; reflexivity|]. split; [vm_compute; reflexivity|].
  destruct (api_scan_route_always_responds model_down_host discovering_cfg
              (body post_with_image) initial_globals [])
    as (resp & Hresp & _ & _ & _ & Hcases).
  rewrite Hresp. f_equal.
  destruct (Hcases sample_image) as (_ & Herr & _); [vm_compute; reflexivity|].
  apply (Herr "TimeoutError"%string "socket hang up"%string None).
  vm_compute; reflexivity.
Defined.

(** ** More concrete runs *)

Lemma getS3Client_is_cached_witness :
  s3Client initial_globals = None /\
  exists c,
    outcome_of (getS3Client quiet_host fixed_cfg initial_globals [])
      = Returned c /\
    resolvedRegion
      (globals_of (getS3Client quiet_host fixed_cfg initial_globals []))
      = Some (client_region c).
Proof.
  split; [reflexivity|].
  destruct (getS3Client_is_cached quiet_host fixed_cfg initial_globals [] [])
    as (c & Hc & _ & _ & _ & Hregion).
  exists c. split; [exact Hc|]. apply Hregion. reflexivity.
Defined.

Lemma persistScanResult_returns_iff_stored_witness :
  outcome_of (persistScanResult retry_fails_host discovering_cfg sample_image
                initial_globals []) = Threw slow_down /\
  ~ In (uploadClient discovering_cfg "ap-southeast-1",
        put_of retry_fails_host discovering_cfg
          "person_image/2024-05-01T10-20-30-456Z-3f2c.jpg" sample_image,
        Returned tt)
       (put_attempts
          (events_of (persistScanResult retry_fails_host discovering_cfg
                        sample_image initial_globals []))).
Proof.
  split; [vm_compute; reflexivity|].
  apply (proj2 (persistScanResult_returns_iff_stored retry_fails_host
                  discovering_cfg sample_image initial_globals [])
           slow_down).
  vm_compute; reflexivity.
Defined.

Lemma handleScan_url_points_at_stored_object_witness :
  client_paired initial_globals /\
  outcome_of (handleScan quiet_host fixed_cfg sample_image initial_globals [])
    = Returned
        {| analysis := JsString "{}";
           recordId := "person_image/2024-05-01T10-20-30-456Z-3f2c.jpg";
           s3Url :=
             "https://faces.s3.eu-west-1.amazonaws.com/person_image/2024-05-01T10-20-30-456Z-3f2c.jpg" |} /\
  exists before c cmd,
    put_attempts
      (events_of (handleScan quiet_host fixed_cfg sample_image
                    initial_globals []))
      = before ++ [(c, cmd, Returned tt)] /\
    "person_image/2024-05-01T10-20-30-456Z-3f2c.jpg"%string = Key cmd /\
    "https://faces.s3.eu-west-1.amazonaws.com/person_image/2024-05-01T10-20-30-456Z-3f2c.jpg"%string
      = public_url (bucket fixed_cfg) (client_region c) (Key cmd).
Proof.
  split; [exact I|]. split; [vm_compute; reflexivity|].
  destruct (handleScan_url_points_at_stored_object quiet_host fixed_cfg
              sample_image initial_globals []
              {| analysis := JsString "{}";
                 recordId := "person_image/2024-05-01T10-20-30-456Z-3f2c.jpg";
                 s3Url :=
                   "https://faces.s3.eu-west-1.amazonaws.com/person_image/2024-05-01T10-20-30-456Z-3f2c.jpg" |})
    as (before & c & cmd & Hputs & Hkey & _ & Hurl & _).
  - exact I.
  - vm_compute; reflexivity.
  - exists before, c, cmd. split; [exact Hputs|]. split; [exact Hkey|exact Hurl].
Defined.

Lemma client_and_cache_paired_unless_redirected_witness :
  never_redirected is_region_mismatch
    (snd (state_after put_denied_host discovering_cfg
            [OpHandleScan sample_image; OpPersistScanResult sample_image]))
    = true /\
  client_matches_cache
    (fst (state_after put_denied_host discovering_cfg
            [OpHandleScan sample_image; OpPersistScanResult sample_image]))
    = true.
Proof.
  split; [vm_compute; reflexivity|].
  apply (client_and_cache_paired_unless_redirected put_denied_host
           discovering_cfg
           [OpHandleScan sample_image; OpPersistScanResult sample_image]
           (fst (state_after put_denied_host discovering_cfg
                   [OpHandleScan sample_image; OpPersistScanResult sample_image]))
           (snd (state_after put_denied_host discovering_cfg
                   [OpHandleScan sample_image; OpPersistScanResult sample_image]))).
  - vm_compute; reflexivity.
  - vm_compute; reflexivity.
Defined.

Lemma handler_always_responds_witness :
  image_of (body {| method := "POST";
                    body := JsObject [("image", JsString "")] |})
    = JsString ""%string /\
  exists resp,
    outcome_of
      (handler quiet_host discovering_cfg
         {| method := "POST"; body := JsObject [("image", JsString "")] |}
         initial_globals []) = Returned resp /\
    resp = missing_image.
Proof.
  split; [vm_compute; reflexivity|].
  destruct (handler_always_responds quiet_host discovering_cfg
              {| method := "POST"; body := JsObject [("image", JsString "")] |}
              initial_globals [])
    as (resp & Hresp & _ & _ & _ & Hempty & _).
  exists resp. split; [exact Hresp|].
  apply Hempty; [vm_compute; reflexivity|reflexivity].
Defined.

Lemma persistScanResult_retry_success_state_witness :
  put_attempts
    (events_of (persistScanResult redirected_host discovering_cfg
                  sample_image initial_globals []))
    = [(uploadClient discovering_cfg "us-east-1",
        put_of redirected_host discovering_cfg
          "person_image/2024-05-01T10-20-30-456Z-3f2c.jpg" sample_image,
        Threw permanent_redirect);
       (uploadClient discovering_cfg "ap-southeast-1",
        put_of redirected_host discovering_cfg
          "person_image/2024-05-01T10-20-30-456Z-3f2c.jpg" sample_image,
        Returned tt)] /\
  resolvedRegion
    (globals_of (persistScanResult redirected_host discovering_cfg
                   sample_image initial_globals [])) = None.
Proof.
  split; [vm_compute; reflexivity|].
  apply (persistScanResult_retry_success_state redirected_host discovering_cfg
           sample_image initial_globals []
           (uploadClient discovering_cfg "us-east-1")
           (put_of redirected_host discovering_cfg
              "person_image/2024-05-01T10-20-30-456Z-3f2c.jpg" sample_image)
           permanent_redirect
           (uploadClient discovering_cfg "ap-southeast-1")
           (put_of redirected_host discovering_cfg
              "person_image/2024-05-01T10-20-30-456Z-3f2c.jpg" sample_image)
           tt).
  vm_compute; reflexivity.
Defined.
